(** * MentorMind chat widget: the message-exchange and rendering protocol

    A shallow embedding of the browser script of the widget (the helpers
    [sanitizeHTML] and [formatResponse], the session identifier, [sendMessage],
    the two bubble renderers, [handleSend] and the listeners), followed by
    the properties of the protocol.

    JavaScript strings are sequences of UTF-16 code units; they are modelled
    as lists of [N].  The values that flow through the script (the parsed
    JSON body and what is read from it) are modelled by [value].  An [async]
    function is cut at its suspension: [handleSend_begin] runs up to the
    [await], [handleSend_settle] from the moment the exchange has settled,
    and [dispatch] lets events interleave between the two.

    The container of the conversation is a tree that the browser builds by
    parsing markup.  The page records the markup that the script has written
    to it ([chatBox_innerHTML]); what the browser reports for the tree is
    [chatBox_markup], the written markup as the parser and the serializer
    hand it back. *)

From Stdlib Require Import NArith String Ascii DecimalString Lia.
From stdpp Require Import base option list gmap.

Local Open Scope N_scope.

(** ** Strings *)

Abbreviation jsstring := (list N).

(** An ASCII literal of the script, as code units. *)
Definition lit (s : string) : jsstring :=
  map N_of_ascii (list_ascii_of_string s).
Arguments lit s%_string.

(** Decimal rendering of a non-negative integer, as [String(n)] and a
    template literal produce it. *)
Definition decimal (n : N) : jsstring :=
  lit (NilZero.string_of_uint (N.to_uint n)).

(** ** Values *)

(** What the script sees of a number: its truthiness and its rendering. *)
Class JSNumber := {
  number : Type;
  number_truthy : number -> bool;
  number_to_string : number -> jsstring
}.

Section Widget.
Context `{JSNumber}.

#[local] Unset Elimination Schemes.
Inductive value :=
| VUndefined
| VNull
| VBool (b : bool)
| VNum (n : number)
| VStr (s : jsstring)
| VArr (items : list value)
| VObj (fields : list (jsstring * value)).
#[local] Set Elimination Schemes.

(** ToBoolean. *)
Definition truthy (v : value) : bool :=
  match v with
  | VUndefined | VNull => false
  | VBool b => b
  | VNum n => number_truthy n
  | VStr s => negb (bool_decide (s = []))
  | VArr _ | VObj _ => true
  end.

(** ToString, for the values on which the conversion completes
    ([convertible] below says which); an array joins its items with commas,
    [null] and [undefined] items rendering as nothing. *)
Fixpoint ToString (v : value) : jsstring :=
  match v with
  | VUndefined => lit "undefined"
  | VNull => lit "null"
  | VBool true => lit "true"
  | VBool false => lit "false"
  | VNum n => number_to_string n
  | VStr s => s
  | VArr items =>
      (fix join (l : list value) : jsstring :=
         match l with
         | [] => []
         | x :: rest =>
             let e := match x with
                      | VUndefined | VNull => []
                      | _ => ToString x
                      end in
             match rest with
             | [] => e
             | _ => e ++ lit "," ++ join rest
             end
         end) items
  | VObj _ => lit "[object Object]"
  end.

(** The conversion of an object to a string calls its [toString] method.
    A parsed object that has a member of that name of its own hides the
    inherited method behind a value that cannot be called, and the
    conversion throws a [TypeError]; so does the conversion of an array that
    holds such an object, since it converts its items. *)
Fixpoint convertible (v : value) : bool :=
  match v with
  | VObj fields =>
      (fix absent (l : list (jsstring * value)) : bool :=
         match l with
         | [] => true
         | (k, _) :: rest => negb (bool_decide (k = lit "toString")) && absent rest
         end) fields
  | VArr items =>
      (fix all (l : list value) : bool :=
         match l with
         | [] => true
         | x :: rest => convertible x && all rest
         end) items
  | _ => true
  end.

(** Lookup in the fields of an object. *)
Fixpoint field (k : jsstring) (fields : list (jsstring * value)) : option value :=
  match fields with
  | [] => None
  | (k', v) :: rest => if bool_decide (k' = k) then Some v else field k rest
  end.

(** The own property [k] of [v], when [v] is an object that has it. *)
Definition own (v : value) (k : jsstring) : option value :=
  match v with
  | VObj fields => field k fields
  | _ => None
  end.

(** Property read [v.k].  Only evaluated on truthy [v]; none of the keys
    the script reads is a prototype property. *)
Definition get (v : value) (k : jsstring) : value :=
  default VUndefined (own v k).

(** [a ?? b] *)
Definition nullish (a b : value) : value :=
  match a with
  | VUndefined | VNull => b
  | _ => a
  end.

(** ** Sanitizer *)

(** HTML fragment serialisation of character data: [&], U+00A0, [<] and [>]
    are written as references, every other code unit as itself. *)
Definition escape_unit (c : N) : jsstring :=
  if c =? 38 then lit "&amp;"
  else if c =? 160 then lit "&nbsp;"
  else if c =? 60 then lit "&lt;"
  else if c =? 62 then lit "&gt;"
  else [c].

Definition escape (s : jsstring) : jsstring := flat_map escape_unit s.

(** The detached [div] of [sanitizeHTML] only ever holds character data. *)
Inductive node := Text (data : jsstring).

Definition createElement_div : list node := [].

(** [el.textContent = v]: the children are replaced by one text node, or by
    none when the string is empty. *)
Definition set_textContent (v : value) (_ : list node) : list node :=
  match ToString (nullish v (VStr [])) with
  | [] => []
  | s => [Text s]
  end.

(** [el.innerHTML] *)
Definition innerHTML (children : list node) : jsstring :=
  flat_map (fun n => match n with Text d => escape d end) children.

Definition sanitizeHTML (text : value) : jsstring :=
  let div := createElement_div in
  let div := set_textContent (nullish text (VStr [])) div in
  innerHTML div.

(** [s.replace(/\n/g, "<br>")] *)
Definition replace_newlines (s : jsstring) : jsstring :=
  flat_map (fun c => if c =? 10 then lit "<br>" else [c]) s.

Definition formatResponse (text : value) : jsstring :=
  replace_newlines (sanitizeHTML text).

(** ** Reading markup back as text

    What the HTML parser makes of markup that is character data, as it
    happens when the markup is assigned to [innerHTML] and [textContent] is
    read: the input stream is preprocessed (a CR LF pair and a lone CR become
    LF), the tokenizer decodes character references, and tree construction
    drops U+0000.  Of the named references only the four that [escape] can
    emit are decoded, others are left as written; a [<] would open markup,
    which is outside this model, so the result is [None]. *)

Fixpoint normalize_newlines (s : jsstring) : jsstring :=
  match s with
  | [] => []
  | c :: rest =>
      if c =? 13 then
        10 :: match rest with
              | [] => []
              | d :: rest' => if d =? 10 then normalize_newlines rest'
                              else normalize_newlines rest
              end
      else c :: normalize_newlines rest
  end.

Inductive tokenizer_state :=
| Data
| CharacterReference (name : jsstring).

Definition alphanumeric (c : N) : bool :=
  ((48 <=? c) && (c <=? 57)) || ((65 <=? c) && (c <=? 90))
  || ((97 <=? c) && (c <=? 122)).

Definition named_reference (name : jsstring) : option N :=
  if bool_decide (name = lit "amp") then Some 38
  else if bool_decide (name = lit "lt") then Some 60
  else if bool_decide (name = lit "gt") then Some 62
  else if bool_decide (name = lit "nbsp") then Some 160
  else None.

Fixpoint tokenize (st : tokenizer_state) (input : jsstring) : option jsstring :=
  match input with
  | [] =>
      match st with
      | Data => Some []
      | CharacterReference name => Some (38 :: name)
      end
  | c :: rest =>
      let data :=
        if c =? 60 then None
        else if c =? 38 then tokenize (CharacterReference []) rest
        else if c =? 0 then tokenize Data rest
        else cons c <$> tokenize Data rest in
      match st with
      | Data => data
      | CharacterReference name =>
          if alphanumeric c then tokenize (CharacterReference (name ++ [c])) rest
          else if c =? 59 then
            match named_reference name with
            | Some u => cons u <$> tokenize Data rest
            | None => app (38 :: name ++ [59]) <$> tokenize Data rest
            end
          else app (38 :: name) <$> data
      end
  end.

Definition read_text (markup : jsstring) : option jsstring :=
  tokenize Data (normalize_newlines markup).

(** Text that the parser hands back as it was written holds neither a
    carriage return nor U+0000. *)
Definition no_cr_nul (s : jsstring) : bool :=
  forallb (fun c => negb (c =? 13) && negb (c =? 0)) s.

Definition drop_nul (s : jsstring) : jsstring :=
  List.filter (fun c => negb (c =? 0)) s.

(** Markup as the browser reports it once it has been parsed into the tree:
    on markup made of [div] and [br] elements around escaped character data,
    which is what the script writes, parsing and serializing again changes
    the character data only, as told above for [read_text] (a carriage
    return comes back as a line feed, U+0000 does not come back), and the
    references are written out as they were. *)
Definition reserialize (markup : jsstring) : jsstring :=
  drop_nul (normalize_newlines markup).

(** [s.trim()]: WhiteSpace and LineTerminator code units are stripped from
    both ends. *)
Definition isWhiteSpace (c : N) : bool :=
  ((9 <=? c) && (c <=? 13)) || (c =? 32) || (c =? 160) || (c =? 0x1680)
  || ((0x2000 <=? c) && (c <=? 0x200A)) || (c =? 0x2028) || (c =? 0x2029)
  || (c =? 0x202F) || (c =? 0x205F) || (c =? 0x3000) || (c =? 0xFEFF).

Fixpoint trimStart (s : jsstring) : jsstring :=
  match s with
  | [] => []
  | c :: rest => if isWhiteSpace c then trimStart rest else s
  end.

Definition trimEnd (s : jsstring) : jsstring := rev (trimStart (rev s)).

Definition trim (s : jsstring) : jsstring := trimEnd (trimStart s).

(** [a || b] on strings: the empty string is the only falsy one. *)
Definition or_else (a b : jsstring) : jsstring :=
  if bool_decide (a = []) then b else a.

(** ** Session identifier *)

(** What the top-level script reads from the browser when it has to mint an
    identifier: the result of [crypto.randomUUID()] when that function
    exists, and the clock. *)
Record browser := {
  randomUUID : option jsstring;
  Date_now : N
}.

Definition SID_KEY : jsstring := lit "mentormind_sid".

(** [getItem] gives [null] for an absent key; [null] and the empty string
    are the falsy results. *)
Definition truthy_item (item : option jsstring) : bool :=
  match item with
  | Some s => negb (bool_decide (s = []))
  | None => false
  end.

(** The conditional expression that mints a new identifier. *)
Definition mint (env : browser) : jsstring :=
  match randomUUID env with
  | Some uuid => uuid
  | None => decimal (Date_now env)
  end.

(** The top-level statements that initialise [sid]; one run per page load. *)
Definition load_sid (env : browser) (localStorage : gmap jsstring jsstring)
  : jsstring * gmap jsstring jsstring :=
  let sid := localStorage !! SID_KEY in
  if negb (truthy_item sid) then
    let sid := mint env in
    (sid, <[SID_KEY := sid]> localStorage)
  else (default [] sid, localStorage).

(** ** Transport *)

Record Error := { message : jsstring }.

(** The errors that the engine raises itself, whose texts the language does
    not fix: the [TypeError] of a value that cannot be converted to a
    string, the [SyntaxError] with which [json()] rejects a body that does
    not parse, and the [TypeError] of a property read on [null]. *)
Class Engine := {
  conversion_error : Error;
  json_syntax_error : Error;
  null_read_error : Error
}.

Context `{Engine}.

Inductive completion (A : Type) :=
| Normal (a : A)
| Throw (e : Error).
Arguments Normal {A} a.
Arguments Throw {A} e.

(** The body of the request, before [JSON.stringify]. *)
Record payload := {
  payload_message : jsstring;
  payload_session_id : jsstring
}.

Record request := {
  url : jsstring;
  method : jsstring;
  content_type : jsstring;
  body : payload
}.

(** How the exchange ends: [fetch] rejects, or it yields a response with a
    status and a body; [json] is [None] when [res.json()] rejects. *)
Inductive fetch_result :=
| NetworkFailure (e : Error)
| Response (status : N) (json : option value).

(** [res.ok] *)
Definition ok (status : N) : bool := (200 <=? status) && (status <=? 299).

(** [sendMessage] up to its first [await]: the request it issues. *)
Definition sendMessage_request (text sid : jsstring) : request :=
  {| url := lit "/chat";
     method := lit "POST";
     content_type := lit "application/json";
     body := {| payload_message := text; payload_session_id := sid |} |}.

(** [new Error(msg)] converts its argument to a string. *)
Definition new_Error (msg : value) : completion Error :=
  if convertible msg then Normal {| message := ToString msg |}
  else Throw conversion_error.

(** [sendMessage] from the point where [fetch] settles.  It touches no
    state of the page, so its two suspensions are taken in one step. *)
Definition sendMessage_settle (r : fetch_result) : completion value :=
  match r with
  | NetworkFailure e => Throw e
  | Response status json =>
      let data := match json with Some d => d | None => VNull end in
      if negb (ok status) then
        let msg :=
          if truthy data && truthy (get data (lit "error"))
          then get data (lit "error")
          else VStr (lit "HTTP " ++ decimal status) in
        match new_Error msg with
        | Normal err => Throw err
        | Throw e => Throw e
        end
      else
        Normal (if truthy data && truthy (get data (lit "response"))
                then get data (lit "response")
                else VStr [])
  end.

(** ** The page *)

(** The three elements the script holds, the console, the module-level
    [sid] and the requests that are in flight.  The elements are taken to
    exist, and [send-btn] to be a button.

    [chatBox_innerHTML] is the markup written to the container: what it held
    at load, followed by the right-hand side of every [innerHTML +=], in the
    order of the assignments.  It is the record of the writes, not what the
    property returns: the container holds the tree parsed from this markup,
    and [chatBox_markup] below is the markup reported for that tree.  The
    markup at load is taken to be of the kind the script writes; it is empty
    on a fresh page. *)
Record page := {
  chatBox_innerHTML : jsstring;
  chatBox_scrolls : nat;
  inputEl_value : jsstring;
  inputEl_focused : bool;
  sendBtn_disabled : bool;
  console_errors : list Error;
  sid : jsstring;
  in_flight : list request
}.

Definition Task (A : Type) : Type := page -> completion A * page.

#[export] Instance task_ret : MRet Task := fun A a p => (Normal a, p).

#[export] Instance task_bind : MBind Task := fun A B k m p =>
  match m p with
  | (Normal a, p') => k a p'
  | (Throw e, p') => (Throw e, p')
  end.

Definition lift {A} (c : completion A) : Task A := fun p => (c, p).

(** [try { body } catch (err) { handler } finally { cleanup }] *)
Definition try_catch_finally (body : Task unit) (handler : Error -> Task unit)
    (cleanup : Task unit) : Task unit :=
  fun p =>
    let (c, p') := match body p with
                   | (Normal a, p') => (Normal a, p')
                   | (Throw e, p') => handler e p'
                   end in
    match cleanup p' with
    | (Normal _, p'') => (c, p'')
    | (Throw e, p'') => (Throw e, p'')
    end.

Definition modify (f : page -> page) : Task unit := fun p => (Normal tt, f p).

Definition reads {A} (f : page -> A) : Task A := fun p => (Normal (f p), p).

(** Field assignments. *)
Definition set_chatBox_innerHTML (h : jsstring) (p : page) : page :=
  {| chatBox_innerHTML := h; chatBox_scrolls := chatBox_scrolls p;
     inputEl_value := inputEl_value p; inputEl_focused := inputEl_focused p;
     sendBtn_disabled := sendBtn_disabled p; console_errors := console_errors p;
     sid := sid p; in_flight := in_flight p |}.

Definition chatBox_scrollTo_bottom (p : page) : page :=
  {| chatBox_innerHTML := chatBox_innerHTML p; chatBox_scrolls := S (chatBox_scrolls p);
     inputEl_value := inputEl_value p; inputEl_focused := inputEl_focused p;
     sendBtn_disabled := sendBtn_disabled p; console_errors := console_errors p;
     sid := sid p; in_flight := in_flight p |}.

Definition set_inputEl_value (v : jsstring) (p : page) : page :=
  {| chatBox_innerHTML := chatBox_innerHTML p; chatBox_scrolls := chatBox_scrolls p;
     inputEl_value := v; inputEl_focused := inputEl_focused p;
     sendBtn_disabled := sendBtn_disabled p; console_errors := console_errors p;
     sid := sid p; in_flight := in_flight p |}.

Definition inputEl_focus (p : page) : page :=
  {| chatBox_innerHTML := chatBox_innerHTML p; chatBox_scrolls := chatBox_scrolls p;
     inputEl_value := inputEl_value p; inputEl_focused := true;
     sendBtn_disabled := sendBtn_disabled p; console_errors := console_errors p;
     sid := sid p; in_flight := in_flight p |}.

Definition set_sendBtn_disabled (b : bool) (p : page) : page :=
  {| chatBox_innerHTML := chatBox_innerHTML p; chatBox_scrolls := chatBox_scrolls p;
     inputEl_value := inputEl_value p; inputEl_focused := inputEl_focused p;
     sendBtn_disabled := b; console_errors := console_errors p;
     sid := sid p; in_flight := in_flight p |}.

Definition console_error (e : Error) (p : page) : page :=
  {| chatBox_innerHTML := chatBox_innerHTML p; chatBox_scrolls := chatBox_scrolls p;
     inputEl_value := inputEl_value p; inputEl_focused := inputEl_focused p;
     sendBtn_disabled := sendBtn_disabled p;
     console_errors := console_errors p ++ [e];
     sid := sid p; in_flight := in_flight p |}.

Definition set_in_flight (l : list request) (p : page) : page :=
  {| chatBox_innerHTML := chatBox_innerHTML p; chatBox_scrolls := chatBox_scrolls p;
     inputEl_value := inputEl_value p; inputEl_focused := inputEl_focused p;
     sendBtn_disabled := sendBtn_disabled p; console_errors := console_errors p;
     sid := sid p; in_flight := l |}.

(** What [chatBox.innerHTML] returns: the serialization of the tree. *)
Definition chatBox_markup (p : page) : jsstring :=
  reserialize (chatBox_innerHTML p).

(** [chatBox.innerHTML += markup].  The property is read, [markup] is put
    after it and the result is parsed into the new tree.  The record of the
    writes grows by [markup]; that the tree is the one parsed from the record
    is [chatBox_append_read_back] below: reading the property after the
    assignment gives the reserialization of what was read before followed by
    [markup]. *)
Definition chatBox_append (markup : jsstring) : Task unit :=
  modify (fun p => set_chatBox_innerHTML (chatBox_innerHTML p ++ markup) p).

(** A helper that assigns its argument to [textContent], applied to a
    value: the assignment converts the value to a string. *)
Definition rendered (helper : value -> jsstring) (text : value)
  : completion jsstring :=
  if convertible text then Normal (helper text) else Throw conversion_error.

(** [fetch(...)]: the request leaves and the caller is suspended. *)
Definition fetch (r : request) : Task unit :=
  modify (fun p => set_in_flight (in_flight p ++ [r]) p).

(** ** Conversation view *)

(** The markup of one bubble; 34 is the double quote. *)
Definition bubble (cls body : jsstring) : jsstring :=
  lit "<div class=" ++ [34] ++ cls ++ [34] ++ lit ">" ++ body ++ lit "</div>".

Definition addUserBubble (text : jsstring) : Task unit :=
  chatBox_append (bubble (lit "user-message") (sanitizeHTML (VStr text)));;
  modify chatBox_scrollTo_bottom.

(** The text of a bot bubble is any value; when it cannot be converted the
    template literal throws before anything is written. *)
Definition addBotBubble (text : value) (isError : bool) : Task unit :=
  let cls := if isError then lit "bot-message error" else lit "bot-message" in
  body ← lift (rendered formatResponse text);
  chatBox_append (bubble cls body);;
  modify chatBox_scrollTo_bottom.

(** ** Input controller *)

(** [handleSend] up to its suspension: either it returns at once, or it
    renders the user bubble, clears the field, disables the button and
    leaves a request in flight. *)
Definition handleSend_begin : Task unit :=
  text ← reads (fun p => trim (or_else (inputEl_value p) []));
  if bool_decide (text = []) then mret tt
  else
    addUserBubble text;;
    modify (set_inputEl_value []);;
    modify (set_sendBtn_disabled true);;
    session ← reads sid;
    fetch (sendMessage_request text session).

(** [handleSend] from the point where the exchange has settled. *)
Definition handleSend_settle (r : fetch_result) : Task unit :=
  try_catch_finally
    (reply ← lift (sendMessage_settle r);
     addBotBubble reply false)
    (fun err =>
       modify (console_error err);;
       addBotBubble
         (VStr (lit "Error contacting the AI Advisor: "
                ++ or_else (message err) (lit "request failed")))
         true)
    (modify (set_sendBtn_disabled false);;
     modify inputEl_focus).

(** The greeting of the load listener, with its two non-ASCII letters. *)
Definition greeting : jsstring :=
  lit "Merhaba! T" ++ [252] ++ lit "rk finansal mevzuatla ilgili sorunu yaz, yard"
  ++ [305] ++ lit "mc" ++ [305] ++ lit " olay" ++ [305] ++ lit "m.".

(** What can happen to the page.  A click reaches the listener only when
    the button is enabled (a disabled control receives no click event);
    [Load] carries the answer of the [querySelector] call. *)
Inductive event :=
| Click
| KeyDown (key : jsstring) (shiftKey : bool)
| Typed (text : jsstring)
| Settled (i : nat) (r : fetch_result)
| Load (found : bool).

Definition dispatch (ev : event) : Task unit :=
  match ev with
  | Click =>
      reads sendBtn_disabled ≫= λ disabled : bool,
      if disabled then mret tt else handleSend_begin
  | KeyDown key shiftKey =>
      if bool_decide (key = lit "Enter") && negb shiftKey
      then handleSend_begin
      else mret tt
  | Typed text => modify (set_inputEl_value text)
  | Settled i r =>
      reads in_flight ≫= λ pending : list request,
      match pending !! i with
      | Some _ =>
          modify (set_in_flight (delete i pending));;
          handleSend_settle r
      | None => mret tt
      end
  | Load found =>
      if negb found then addBotBubble (VStr greeting) false else mret tt
  end.

(** The page after an event, and after a run of events. *)
Definition step (p : page) (ev : event) : page := snd (dispatch ev p).

Definition run (evs : list event) (p : page) : page := foldl step p evs.

(** ** Statements to compare the script with *)

(** The outcome of [sendMessage] as the interface description words it: the
    presence of the field decides, not its truthiness. *)
Definition sendMessage_as_described (r : fetch_result) : completion value :=
  match r with
  | NetworkFailure e => Throw e
  | Response status json =>
      let data := match json with Some d => d | None => VNull end in
      if negb (ok status) then
        Throw {| message :=
                   match own data (lit "error") with
                   | Some e => ToString e
                   | None => lit "HTTP " ++ decimal status
                   end |}
      else
        Normal (match own data (lit "response") with
                | Some v => v
                | None => VStr []
                end)
  end.

(** A bubble whose body went through the sanitizer. *)
Inductive sanitized_bubble : jsstring -> Prop :=
| sanitized_user (text : value) :
    sanitized_bubble (bubble (lit "user-message") (sanitizeHTML text))
| sanitized_bot (text : value) (isError : bool) :
    sanitized_bubble
      (bubble (if isError then lit "bot-message error" else lit "bot-message")
              (formatResponse text)).

(** A send is pending: the button is disabled and a request is in flight. *)
Definition Pending (p : page) : Prop :=
  sendBtn_disabled p = true /\ in_flight p <> [].

End Widget.

Arguments Normal {A} a.
Arguments Throw {A} e.

(** Bodies without numbers, for the examples. *)
#[export] Instance no_numbers : JSNumber :=
  {| number := Empty_set;
     number_truthy := fun n => match n with end;
     number_to_string := fun n => match n with end |}.

(** Texts for the engine's own errors, for the examples. *)
#[export] Instance sample_engine : Engine :=
  {| conversion_error :=
       {| message := lit "Cannot convert object to primitive value" |};
     json_syntax_error := {| message := lit "Unexpected end of JSON input" |};
     null_read_error :=
       {| message := lit "Cannot read properties of null" |} |}.

(** A freshly loaded page with an empty conversation. *)
Definition fresh_page (session : jsstring) : page :=
  {| chatBox_innerHTML := []; chatBox_scrolls := 0;
     inputEl_value := []; inputEl_focused := false;
     sendBtn_disabled := false; console_errors := [];
     sid := session; in_flight := [] |}.

(** ** The earlier variant of the script

    [static/script.js] holds an earlier click listener over the same three
    elements, with helpers of its own.  It neither trims nor disables, reads
    no status, and clears the field once the exchange is over. *)

Section Legacy.
Context `{JSNumber} `{Engine}.

(** The earlier [sanitizeHTML] assigns its argument as it is. *)
Definition legacy_sanitizeHTML (text : value) : jsstring :=
  let div := createElement_div in
  let div := set_textContent text div in
  innerHTML div.

Definition legacy_formatResponse (text : value) : jsstring :=
  let sanitizedText := legacy_sanitizeHTML text in
  let sanitizedText := replace_newlines sanitizedText in
  sanitizedText.

(** The request of the earlier listener: the body holds the message only. *)
Record legacy_request := {
  legacy_url : jsstring;
  legacy_method : jsstring;
  legacy_content_type : jsstring;
  legacy_message : jsstring
}.

(** [chatBox.innerHTML += markup] of the earlier listener, the same
    statement as [chatBox_append]. *)
Definition append_markup (markup : jsstring) : Task unit :=
  modify (fun p => set_chatBox_innerHTML (chatBox_innerHTML p ++ markup) p).

(** The listener up to its suspension at [fetch]. *)
Definition legacy_click_begin : Task (option legacy_request) :=
  userInput ← reads inputEl_value;
  if bool_decide (userInput = []) then mret None
  else
    append_markup
      (bubble (lit "user-message") (legacy_sanitizeHTML (VStr userInput)));;
    mret (Some {| legacy_url := lit "/chat";
                  legacy_method := lit "POST";
                  legacy_content_type := lit "application/json";
                  legacy_message := userInput |}).

(** The listener from the point where the exchange has settled.  A body
    that does not parse, a [null] body and a field that cannot be converted
    to a string all throw inside the [try] and end in the [catch]. *)
Definition legacy_click_settle (r : fetch_result) : Task unit :=
  try_catch_finally
    (data ← lift (match r with
                  | NetworkFailure e => Throw e
                  | Response _ None => Throw json_syntax_error
                  | Response _ (Some d) => Normal d
                  end);
     response ← lift (match data with
                      | VUndefined | VNull => Throw null_read_error
                      | _ => Normal (get data (lit "response"))
                      end);
     if truthy response then
       body ← lift (rendered legacy_formatResponse response);
       append_markup (bubble (lit "bot-message") body)
     else
       body ← lift (rendered legacy_sanitizeHTML (get data (lit "error")));
       append_markup (bubble (lit "bot-message error") (lit "Error: " ++ body)))
    (fun error =>
       append_markup
         (bubble (lit "bot-message error")
            (lit "Error: " ++ legacy_sanitizeHTML (VStr (message error)))))
    (mret tt);;
  modify (set_inputEl_value []);;
  modify chatBox_scrollTo_bottom.

End Legacy.

(** ** Notions used by the further properties *)

(** A string that starts and ends with a code unit that [trim] keeps. *)
Definition kept_by_trim (c : option N) : bool :=
  match c with
  | Some c => negb (isWhiteSpace c)
  | None => false
  end.

Definition is_trimmed (m : jsstring) : bool :=
  kept_by_trim (head m) && kept_by_trim (last m).

(** The requests that [sendMessage] issues for the session [session]. *)
Definition chat_request (session : jsstring) (r : request) : Prop :=
  url r = lit "/chat"
  /\ method r = lit "POST"
  /\ content_type r = lit "application/json"
  /\ payload_session_id (body r) = session
  /\ is_trimmed (payload_message (body r)) = true.

(** The lines of a text, split at every line feed, and their joining. *)
Fixpoint lines (s : jsstring) : list jsstring :=
  match s with
  | [] => [[]]
  | c :: rest =>
      if c =? 10 then [] :: lines rest
      else match lines rest with
           | l :: ls => (c :: l) :: ls
           | [] => [[c]]
           end
  end.

Fixpoint join (sep : jsstring) (parts : list jsstring) : jsstring :=
  match parts with
  | [] => []
  | [l] => l
  | l :: ls => l ++ sep ++ join sep ls
  end.

(** What the container shows for a bubble: a [div] of one of the three
    classes around escaped texts separated by break elements. *)
Definition bubble_class (cls : jsstring) : Prop :=
  cls = lit "user-message" \/ cls = lit "bot-message"
  \/ cls = lit "bot-message error".

Inductive displayed_bubble : jsstring -> Prop :=
| displayed (cls : jsstring) (texts : list jsstring) :
    bubble_class cls ->
    displayed_bubble (bubble cls (join (lit "<br>") (map escape texts))).

(** Text on which the sanitizer has nothing to do. *)
Definition needs_no_escape (s : jsstring) : bool :=
  forallb (fun c => negb ((c =? 38) || (c =? 160) || (c =? 60) || (c =? 62))) s.

(** Key events that the keydown listener lets pass. *)
Definition ignored_key `{JSNumber} (ev : event) : bool :=
  match ev with
  | KeyDown key shiftKey => negb (bool_decide (key = lit "Enter") && negb shiftKey)
  | _ => false
  end.

(** * Properties *)

Section Properties.
Context {numbers : JSNumber} {engine : Engine}.

(** ** Sanitizer *)

Lemma escape_app (a b : jsstring) : escape (a ++ b) = escape a ++ escape b.
Proof. unfold escape. apply flat_map_app. Qed.

Lemma replace_newlines_app (a b : jsstring) :
  replace_newlines (a ++ b) = replace_newlines a ++ replace_newlines b.
Proof. unfold replace_newlines. apply flat_map_app. Qed.

Lemma nullish_idem (v d : value) : nullish (nullish v d) d = nullish v d.
Proof. destruct v; destruct d; reflexivity. Qed.

(** [sanitizeHTML] is [escape] after the coercion of its argument. *)
Lemma sanitizeHTML_escape (v : value) :
  sanitizeHTML v = escape (ToString (nullish v (VStr []))).
Proof.
  unfold sanitizeHTML, set_textContent, innerHTML.
  rewrite nullish_idem.
  destruct (ToString (nullish v (VStr []))) as [|c s]; simpl.
  - reflexivity.
  - now rewrite app_nil_r.
Qed.

Lemma sanitizeHTML_VStr (s : jsstring) : sanitizeHTML (VStr s) = escape s.
Proof. now rewrite sanitizeHTML_escape. Qed.

(** The cases of [escape_unit]. *)
Lemma escape_unit_cases (c : N) :
  (c = 38 /\ escape_unit c = lit "&amp;") \/
  (c = 160 /\ escape_unit c = lit "&nbsp;") \/
  (c = 60 /\ escape_unit c = lit "&lt;") \/
  (c = 62 /\ escape_unit c = lit "&gt;") \/
  (c <> 38 /\ c <> 160 /\ c <> 60 /\ c <> 62 /\ escape_unit c = [c]).
Proof.
  unfold escape_unit.
  destruct (N.eqb_spec c 38); [now left|].
  destruct (N.eqb_spec c 160); [now right; left|].
  destruct (N.eqb_spec c 60); [now right; right; left|].
  destruct (N.eqb_spec c 62); [now right; right; right; left|].
  now right; right; right; right.
Qed.

Ltac escape_cases c :=
  destruct (escape_unit_cases c)
    as [[-> ->]|[[-> ->]|[[-> ->]|[[-> ->]|(?&?&?&?& ->)]]]].

(** Escaped text holds neither [<] nor [>]. *)
Lemma escape_no_angle (s : jsstring) :
  forallb (fun c => negb (c =? 60) && negb (c =? 62)) (escape s) = true.
Proof.
  induction s as [|c s IH]; [reflexivity|].
  change (escape (c :: s)) with (escape_unit c ++ escape s).
  rewrite forallb_app, IH, andb_true_r.
  escape_cases c; try reflexivity.
  simpl. rewrite andb_true_r.
  apply andb_true_intro; split; apply negb_true_iff, N.eqb_neq; assumption.
Qed.

(** *** Reading escaped text back *)

Lemma normalize_cr_lf (rest : jsstring) :
  normalize_newlines (13 :: 10 :: rest) = 10 :: normalize_newlines rest.
Proof. reflexivity. Qed.

Lemma normalize_cr_other (d : N) (rest : jsstring) :
  d <> 10 ->
  normalize_newlines (13 :: d :: rest) = 10 :: normalize_newlines (d :: rest).
Proof.
  intros Hd. cbn [normalize_newlines N.eqb Pos.eqb].
  apply N.eqb_neq in Hd. now rewrite Hd.
Qed.

Lemma normalize_other (c : N) (rest : jsstring) :
  c <> 13 ->
  normalize_newlines (c :: rest) = c :: normalize_newlines rest.
Proof.
  intros Hc. cbn [normalize_newlines]. apply N.eqb_neq in Hc. now rewrite Hc.
Qed.

(** Escaping commutes with the preprocessing of the input stream. *)
Lemma normalize_escape_bounded (n : nat) :
  forall s : jsstring, (length s <= n)%nat ->
    normalize_newlines (escape s) = escape (normalize_newlines s).
Proof.
  induction n as [|n IH]; intros [|c rest] Hlen; try reflexivity;
    cbn [length] in Hlen; [lia|].
  change (escape (c :: rest)) with (escape_unit c ++ escape rest).
  destruct (N.eq_dec c 13) as [->|Hc].
  - change (escape_unit 13 ++ escape rest) with (13 :: escape rest).
    destruct rest as [|d rest']; [reflexivity|].
    destruct (N.eq_dec d 10) as [->|Hd].
    + change (escape (10 :: rest')) with (10 :: escape rest').
      rewrite !normalize_cr_lf.
      change (escape (10 :: normalize_newlines rest'))
        with (10 :: escape (normalize_newlines rest')).
      f_equal. apply IH. cbn [length] in Hlen. lia.
    + rewrite (normalize_cr_other d rest' Hd).
      change (escape (10 :: normalize_newlines (d :: rest')))
        with (10 :: escape (normalize_newlines (d :: rest'))).
      rewrite <- (IH (d :: rest')) by lia.
      change (escape (d :: rest')) with (escape_unit d ++ escape rest').
      escape_cases d; try reflexivity.
      change ([d] ++ escape rest') with (d :: escape rest').
      now apply normalize_cr_other.
  - rewrite (normalize_other c rest Hc).
    change (escape (c :: normalize_newlines rest))
      with (escape_unit c ++ escape (normalize_newlines rest)).
    rewrite <- (IH rest) by lia.
    escape_cases c; try reflexivity.
    change ([c] ++ escape rest) with (c :: escape rest).
    now apply normalize_other.
Qed.

Lemma normalize_escape (s : jsstring) :
  normalize_newlines (escape s) = escape (normalize_newlines s).
Proof. now apply (normalize_escape_bounded (length s)). Qed.

(** The tokenizer undoes [escape], up to the U+0000 that tree construction
    drops. *)
Lemma tokenize_escape (s : jsstring) :
  tokenize Data (escape s) = Some (drop_nul s).
Proof.
  induction s as [|c s IH]; [reflexivity|].
  change (escape (c :: s)) with (escape_unit c ++ escape s).
  escape_cases c;
    try (cbn -[escape]; rewrite IH; reflexivity).
  change ([c] ++ escape s) with (c :: escape s).
  cbn [tokenize drop_nul List.filter].
  destruct (N.eqb_spec c 60); [contradiction|].
  destruct (N.eqb_spec c 38); [contradiction|].
  fold (drop_nul s).
  destruct (N.eqb_spec c 0); cbn [negb]; rewrite IH; reflexivity.
Qed.

(** What reading escaped text back yields, for every string. *)
Lemma read_text_escape (s : jsstring) :
  read_text (escape s) = Some (drop_nul (normalize_newlines s)).
Proof. unfold read_text. rewrite normalize_escape. apply tokenize_escape. Qed.

Lemma no_cr_nul_fixed (s : jsstring) :
  no_cr_nul s = true -> drop_nul (normalize_newlines s) = s.
Proof.
  induction s as [|c s IH]; [reflexivity|].
  cbn [no_cr_nul forallb]. fold (no_cr_nul s).
  intros [[Hc H0]%andb_true_iff Hs]%andb_true_iff.
  apply negb_true_iff in Hc, H0.
  rewrite normalize_other by now apply N.eqb_neq.
  cbn [drop_nul List.filter]. rewrite H0. cbn [negb].
  fold (drop_nul (normalize_newlines s)). now rewrite IH.
Qed.

(** C5 (amended).  For every string [s] that holds neither a carriage
    return nor U+0000, [sanitizeHTML] round-trips: its result, inserted as
    markup and read back as text, is [s].  For every argument the result
    holds no angle bracket, so it reads back as character data and opens no
    markup; the function is total, and [null] and [undefined] are treated as
    the empty string. *)
Theorem sanitizeHTML_round_trip (s : jsstring) :
  no_cr_nul s = true ->
  read_text (sanitizeHTML (VStr s)) = Some s
  /\ (forall text : value,
        forallb (fun c => negb (c =? 60) && negb (c =? 62)) (sanitizeHTML text)
          = true
        /\ read_text (sanitizeHTML text)
           = Some (drop_nul (normalize_newlines
                               (ToString (nullish text (VStr []))))))
  /\ sanitizeHTML VNull = sanitizeHTML (VStr [])
  /\ sanitizeHTML VUndefined = sanitizeHTML (VStr [])
  /\ sanitizeHTML (VStr []) = [].
Proof.
  intros Hs. repeat split.
  - rewrite sanitizeHTML_VStr, read_text_escape. f_equal.
    now apply no_cr_nul_fixed.
  - rewrite sanitizeHTML_escape. apply escape_no_angle.
  - rewrite sanitizeHTML_escape. apply read_text_escape.
Qed.

Lemma replace_newlines_no_newline (s : jsstring) :
  forallb (fun c => negb (c =? 10)) (replace_newlines s) = true.
Proof.
  induction s as [|c s IH]; [reflexivity|].
  change (replace_newlines (c :: s))
    with ((if c =? 10 then lit "<br>" else [c]) ++ replace_newlines s).
  rewrite forallb_app, IH, andb_true_r.
  destruct (c =? 10) eqn:Hc; [reflexivity|].
  cbn [forallb]. now rewrite Hc.
Qed.

(** C6.  [formatResponse] escapes first and then replaces every newline by
    the raw break element: no newline is left, the break stands unescaped
    between the formatted parts, and for "a\nb" the result is the escaped
    "a", one break, the escaped "b". *)
Theorem formatResponse_escapes_then_breaks :
  (forall text : value,
     formatResponse text
     = replace_newlines (escape (ToString (nullish text (VStr [])))))
  /\ (forall text : value,
        forallb (fun c => negb (c =? 10)) (formatResponse text) = true)
  /\ (forall a b : jsstring,
        formatResponse (VStr (a ++ [10] ++ b))
        = formatResponse (VStr a) ++ lit "<br>" ++ formatResponse (VStr b))
  /\ formatResponse (VStr (lit "a" ++ [10] ++ lit "b"))
     = sanitizeHTML (VStr (lit "a")) ++ lit "<br>" ++ sanitizeHTML (VStr (lit "b")).
Proof.
  repeat split.
  - intros text. unfold formatResponse. now rewrite sanitizeHTML_escape.
  - intros text. apply replace_newlines_no_newline.
  - intros a b. unfold formatResponse.
    rewrite !sanitizeHTML_VStr, !escape_app, !replace_newlines_app.
    reflexivity.
Qed.

(** ** Input controller, step by step *)

Lemma or_else_nil_r (a : jsstring) : or_else a [] = a.
Proof. unfold or_else. now case_bool_decide. Qed.

Lemma handleSend_begin_blank (p : page) :
  trim (inputEl_value p) = [] -> handleSend_begin p = (Normal tt, p).
Proof.
  intros Hblank. unfold handleSend_begin, mbind, task_bind, reads.
  rewrite or_else_nil_r, Hblank. reflexivity.
Qed.

Lemma handleSend_begin_send (p : page) :
  trim (inputEl_value p) <> [] ->
  handleSend_begin p =
    (Normal tt,
     {| chatBox_innerHTML :=
          chatBox_innerHTML p
          ++ bubble (lit "user-message")
                    (sanitizeHTML (VStr (trim (inputEl_value p))));
        chatBox_scrolls := S (chatBox_scrolls p);
        inputEl_value := [];
        inputEl_focused := inputEl_focused p;
        sendBtn_disabled := true;
        console_errors := console_errors p;
        sid := sid p;
        in_flight :=
          in_flight p ++ [sendMessage_request (trim (inputEl_value p)) (sid p)] |}).
Proof.
  intros Htext. unfold handleSend_begin, mbind, task_bind, reads.
  rewrite or_else_nil_r. case_bool_decide; [contradiction|]. reflexivity.
Qed.

Lemma handleSend_settle_success (r : fetch_result) (reply : value) (p : page) :
  sendMessage_settle r = Normal reply ->
  convertible reply = true ->
  handleSend_settle r p =
    (Normal tt,
     {| chatBox_innerHTML :=
          chatBox_innerHTML p ++ bubble (lit "bot-message") (formatResponse reply);
        chatBox_scrolls := S (chatBox_scrolls p);
        inputEl_value := inputEl_value p;
        inputEl_focused := true;
        sendBtn_disabled := false;
        console_errors := console_errors p;
        sid := sid p;
        in_flight := in_flight p |}).
Proof.
  intros Hr Hc.
  unfold handleSend_settle, try_catch_finally, mbind, task_bind, lift.
  rewrite Hr. unfold addBotBubble, rendered, mbind, task_bind, lift.
  rewrite Hc. reflexivity.
Qed.

Lemma handleSend_settle_failure (r : fetch_result) (err : Error) (p : page) :
  sendMessage_settle r = Throw err ->
  handleSend_settle r p =
    (Normal tt,
     {| chatBox_innerHTML :=
          chatBox_innerHTML p
          ++ bubble (lit "bot-message error")
               (formatResponse
                  (VStr (lit "Error contacting the AI Advisor: "
                         ++ or_else (message err) (lit "request failed"))));
        chatBox_scrolls := S (chatBox_scrolls p);
        inputEl_value := inputEl_value p;
        inputEl_focused := true;
        sendBtn_disabled := false;
        console_errors := console_errors p ++ [err];
        sid := sid p;
        in_flight := in_flight p |}).
Proof.
  intros Hr. unfold handleSend_settle, try_catch_finally, mbind, task_bind, lift.
  rewrite Hr. reflexivity.
Qed.

(** A reply that cannot be converted makes [addBotBubble] throw inside the
    [try]: the handler reports the engine's error like any other. *)
Lemma handleSend_settle_unconvertible (r : fetch_result) (reply : value)
    (p : page) :
  sendMessage_settle r = Normal reply ->
  convertible reply = false ->
  handleSend_settle r p =
    (Normal tt,
     {| chatBox_innerHTML :=
          chatBox_innerHTML p
          ++ bubble (lit "bot-message error")
               (formatResponse
                  (VStr (lit "Error contacting the AI Advisor: "
                         ++ or_else (message conversion_error)
                                    (lit "request failed"))));
        chatBox_scrolls := S (chatBox_scrolls p);
        inputEl_value := inputEl_value p;
        inputEl_focused := true;
        sendBtn_disabled := false;
        console_errors := console_errors p ++ [conversion_error];
        sid := sid p;
        in_flight := in_flight p |}).
Proof.
  intros Hr Hc.
  unfold handleSend_settle, try_catch_finally, mbind, task_bind, lift.
  rewrite Hr. unfold addBotBubble at 1. unfold rendered, mbind, task_bind, lift.
  rewrite Hc. reflexivity.
Qed.

(** Whatever the outcome, settling appends one bot bubble, logs at most one
    error and leaves the page idle. *)
Lemma handleSend_settle_cases (r : fetch_result) (p : page) :
  exists (text : value) (isError : bool) (logged : list Error),
    handleSend_settle r p =
      (Normal tt,
       {| chatBox_innerHTML :=
            chatBox_innerHTML p
            ++ bubble (if isError then lit "bot-message error"
                       else lit "bot-message")
                      (formatResponse text);
          chatBox_scrolls := S (chatBox_scrolls p);
          inputEl_value := inputEl_value p;
          inputEl_focused := true;
          sendBtn_disabled := false;
          console_errors := console_errors p ++ logged;
          sid := sid p;
          in_flight := in_flight p |}).
Proof.
  destruct (sendMessage_settle r) as [reply|err] eqn:Hr.
  - destruct (convertible reply) eqn:Hc.
    + exists reply, false, [].
      rewrite (handleSend_settle_success r reply p Hr Hc).
      now rewrite app_nil_r.
    + eexists _, true, [_].
      now rewrite (handleSend_settle_unconvertible r reply p Hr Hc).
  - eexists _, true, [_]. now rewrite (handleSend_settle_failure r err p Hr).
Qed.

(** *** Blank input *)

Lemma trimStart_blank (s : jsstring) :
  forallb isWhiteSpace s = true -> trimStart s = [].
Proof.
  induction s as [|c s IH]; [reflexivity|].
  cbn [forallb trimStart]. intros [Hc Hs]%andb_true_iff.
  rewrite Hc. now apply IH.
Qed.

Lemma trim_blank (s : jsstring) :
  forallb isWhiteSpace s = true -> trim s = [].
Proof.
  intros Hs. unfold trim, trimEnd. now rewrite (trimStart_blank s Hs).
Qed.

Lemma trimStart_head (s : jsstring) (c : N) (t : jsstring) :
  trimStart s = c :: t -> isWhiteSpace c = false.
Proof.
  induction s as [|d s IH]; [discriminate|].
  cbn [trimStart]. destruct (isWhiteSpace d) eqn:Hd; [exact IH|].
  intros [= <- _]. exact Hd.
Qed.

Lemma trimStart_nil (s : jsstring) :
  trimStart s = [] -> forallb isWhiteSpace s = true.
Proof.
  induction s as [|d s IH]; [reflexivity|].
  cbn [trimStart forallb]. destruct (isWhiteSpace d); [exact IH|discriminate].
Qed.

(** The trimmed text is empty exactly for blank input. *)
Lemma trim_nil_iff (s : jsstring) :
  trim s = [] <-> forallb isWhiteSpace s = true.
Proof.
  split; [|apply trim_blank].
  unfold trim, trimEnd. intros Hrev.
  apply trimStart_nil.
  destruct (trimStart s) as [|c t] eqn:Hstart; [reflexivity|].
  apply (f_equal (@rev N)) in Hrev. rewrite rev_involutive in Hrev.
  cbn [rev] in Hrev. apply trimStart_nil in Hrev.
  rewrite forallb_forall in Hrev.
  specialize (Hrev c). rewrite (trimStart_head s c t Hstart) in Hrev.
  discriminate Hrev. apply (proj1 (in_rev (c :: t) c)). now left.
Qed.

(** C8.  A send triggered on empty or whitespace-only input, by a click or
    by Enter without shift, is a silent no-op: the handler completes and the
    page is the same page, so no bubble is added, no request is issued, the
    field and the button are unchanged and nothing is logged. *)
Theorem blank_send_is_noop (p : page) (ev : event) :
  forallb isWhiteSpace (inputEl_value p) = true ->
  ev = Click \/ ev = KeyDown (lit "Enter") false ->
  dispatch ev p = (Normal tt, p).
Proof.
  intros Hblank%trim_blank [-> | ->].
  - unfold dispatch, mbind, task_bind, reads.
    destruct (sendBtn_disabled p); [reflexivity|].
    now apply handleSend_begin_blank.
  - cbn. now apply handleSend_begin_blank.
Qed.

(** *** What an event adds to the conversation *)

Lemma handleSend_begin_appends (p : page) :
  exists bubbles : list jsstring,
    chatBox_innerHTML (snd (handleSend_begin p))
    = chatBox_innerHTML p ++ concat bubbles
    /\ Forall sanitized_bubble bubbles.
Proof.
  destruct (decide (trim (inputEl_value p) = [])) as [Hblank|Htext].
  - exists []. rewrite (handleSend_begin_blank p Hblank).
    cbn. now rewrite app_nil_r.
  - exists [bubble (lit "user-message")
                   (sanitizeHTML (VStr (trim (inputEl_value p))))].
    rewrite (handleSend_begin_send p Htext). cbn [snd chatBox_innerHTML concat].
    rewrite app_nil_r. split; [reflexivity|].
    constructor; [apply sanitized_user|constructor].
Qed.

Lemma handleSend_settle_appends (r : fetch_result) (p : page) :
  exists (text : value) (isError : bool),
    chatBox_innerHTML (snd (handleSend_settle r p))
    = chatBox_innerHTML p
      ++ bubble (if isError then lit "bot-message error" else lit "bot-message")
                (formatResponse text).
Proof.
  destruct (handleSend_settle_cases r p) as (text & isError & logged & ->).
  now exists text, isError.
Qed.

Lemma step_appends (ev : event) (p : page) :
  exists bubbles : list jsstring,
    chatBox_innerHTML (step p ev) = chatBox_innerHTML p ++ concat bubbles
    /\ Forall sanitized_bubble bubbles.
Proof.
  unfold step. destruct ev as [|key shiftKey|text|i r|found].
  - unfold dispatch, mbind, task_bind, reads.
    destruct (sendBtn_disabled p); [|apply handleSend_begin_appends].
    exists []. cbn. now rewrite app_nil_r.
  - unfold dispatch.
    destruct (bool_decide (key = lit "Enter") && negb shiftKey);
      [apply handleSend_begin_appends|].
    exists []. cbn. now rewrite app_nil_r.
  - exists []. cbn. now rewrite app_nil_r.
  - unfold dispatch, mbind, task_bind, reads.
    destruct (in_flight p !! i) as [req|].
    + destruct (handleSend_settle_appends r
                  (set_in_flight (delete i (in_flight p)) p))
        as (text & isError & Happ).
      eexists [_]. cbn [modify concat]. rewrite Happ, app_nil_r.
      split; [reflexivity|].
      constructor; [apply sanitized_bot|constructor].
    + exists []. cbn. now rewrite app_nil_r.
  - destruct found.
    + exists []. cbn. now rewrite app_nil_r.
    + eexists [_]. cbn [dispatch negb concat]. rewrite app_nil_r.
      split; [reflexivity|].
      constructor; [apply (sanitized_bot (VStr greeting) false)|constructor].
Qed.

(** C9.  Whether the exchange resolves or rejects, [handleSend] completes
    normally once it has settled, with the button enabled again and the
    focus on the input; and no listener lets a failure escape. *)
Theorem handleSend_settle_returns_to_idle (r : fetch_result) (p : page) :
  (exists p' : page,
     handleSend_settle r p = (Normal tt, p')
     /\ sendBtn_disabled p' = false
     /\ inputEl_focused p' = true)
  /\ (forall (ev : event) (q : page), fst (dispatch ev q) = Normal tt).
Proof.
  split.
  - destruct (handleSend_settle_cases r p) as (text & isError & logged & ->).
    eexists. repeat split.
  - intros ev q. destruct ev as [|key shiftKey|text|i r'|found].
    + unfold dispatch, mbind, task_bind, reads.
      destruct (sendBtn_disabled q); [reflexivity|].
      destruct (decide (trim (inputEl_value q) = [])) as [Hb|Ht].
      * now rewrite (handleSend_begin_blank q Hb).
      * now rewrite (handleSend_begin_send q Ht).
    + unfold dispatch.
      destruct (bool_decide (key = lit "Enter") && negb shiftKey);
        [|reflexivity].
      destruct (decide (trim (inputEl_value q) = [])) as [Hb|Ht].
      * now rewrite (handleSend_begin_blank q Hb).
      * now rewrite (handleSend_begin_send q Ht).
    + reflexivity.
    + unfold dispatch, mbind, task_bind, reads.
      destruct (in_flight q !! i); [|reflexivity].
      cbn [modify].
      now destruct (handleSend_settle_cases r'
                      (set_in_flight (delete i (in_flight q)) q))
        as (text & isError & logged & ->).
    + destruct found; reflexivity.
Qed.

Lemma handleSend_settle_keeps_input (r : fetch_result) (p : page) :
  inputEl_value (snd (handleSend_settle r p)) = inputEl_value p.
Proof.
  now destruct (handleSend_settle_cases r p) as (text & isError & logged & ->).
Qed.

(** C10.  A send with non-blank text leaves, at the point where the handler
    is suspended, the user bubble appended, the input field empty and the
    request still in flight; settling does not write the field, so it is
    empty afterwards on the success and on the failure path alike. *)
Theorem input_cleared_and_not_restored (p : page) (r : fetch_result) :
  trim (inputEl_value p) <> [] ->
  let p1 := snd (handleSend_begin p) in
  chatBox_innerHTML p1
  = chatBox_innerHTML p
    ++ bubble (lit "user-message") (sanitizeHTML (VStr (trim (inputEl_value p))))
  /\ inputEl_value p1 = []
  /\ in_flight p1
     = in_flight p ++ [sendMessage_request (trim (inputEl_value p)) (sid p)]
  /\ inputEl_value (snd (handleSend_settle r p1)) = []
  /\ (forall q : page,
        inputEl_value (snd (handleSend_settle r q)) = inputEl_value q).
Proof.
  intros Htext p1. subst p1.
  rewrite handleSend_settle_keeps_input.
  rewrite (handleSend_begin_send p Htext). cbn.
  repeat split. apply handleSend_settle_keeps_input.
Qed.

(** ** Transport *)

(** The guard [data && data.k] is decided by [data.k] alone. *)
Lemma truthy_get (data : value) (k : jsstring) :
  truthy data && truthy (get data k) = truthy (get data k).
Proof.
  destruct data; cbn; try reflexivity; try apply andb_false_r.
Qed.

(** C3 (amended).  For a response with a status, [sendMessage] rejects
    exactly when the status is outside 200-299.  It then carries the body's
    [error] field, converted to a string, when that field is truthy, and
    "HTTP <status>" otherwise; a truthy field that cannot be converted to a
    string (an object with a [toString] member of its own) makes
    [new Error] throw, and the rejection is the engine's error.  On a 2xx
    status it resolves to the body's [response] field when that field is
    truthy, and to the empty string otherwise.  A body that does not parse
    is an empty parse result: the call resolves to the empty string or
    rejects with "HTTP <status>". *)
Theorem sendMessage_settle_outcome (status : N) (json : option value) :
  let data := match json with Some d => d | None => VNull end in
  sendMessage_settle (Response status json)
  = (if ok status
     then Normal (if truthy (get data (lit "response"))
                  then get data (lit "response")
                  else VStr [])
     else Throw (if truthy (get data (lit "error"))
                 then (if convertible (get data (lit "error"))
                       then {| message := ToString (get data (lit "error")) |}
                       else conversion_error)
                 else {| message := lit "HTTP " ++ decimal status |}))
  /\ ((exists e : Error, sendMessage_settle (Response status json) = Throw e)
      <-> ok status = false)
  /\ sendMessage_settle (Response status None)
     = (if ok status then Normal (VStr [])
        else Throw {| message := lit "HTTP " ++ decimal status |}).
Proof.
  intros data. unfold sendMessage_settle, new_Error. fold data.
  rewrite !truthy_get.
  destruct (ok status); cbn [negb].
  - split; [reflexivity|]. split; [|reflexivity].
    split; [intros [e He]; discriminate He|discriminate].
  - split.
    + destruct (truthy (get data (lit "error"))); [|reflexivity].
      now destruct (convertible (get data (lit "error"))).
    + split; [|reflexivity]. split; [reflexivity|]. intros _.
      destruct (truthy (get data (lit "error"))); [|cbn; eauto].
      destruct (convertible (get data (lit "error"))); eauto.
Qed.

(** ** Session identifier *)

Lemma decimal_nonempty (n : N) : decimal n <> [].
Proof.
  unfold decimal, NilZero.string_of_uint.
  destruct (N.to_uint n); discriminate.
Qed.

Lemma mint_nonempty (env : browser) :
  randomUUID env <> Some [] -> mint env <> [].
Proof.
  unfold mint. destruct (randomUUID env) as [uuid|].
  - intros Hu ->. now apply Hu.
  - intros _. apply decimal_nonempty.
Qed.

Lemma load_sid_present (env : browser) (ls : gmap jsstring jsstring)
    (s : jsstring) :
  ls !! SID_KEY = Some s -> s <> [] -> load_sid env ls = (s, ls).
Proof.
  intros Hs Hne. unfold load_sid. rewrite Hs. cbn [truthy_item].
  case_bool_decide; [contradiction|]. reflexivity.
Qed.

Lemma load_sid_absent (env : browser) (ls : gmap jsstring jsstring) :
  truthy_item (ls !! SID_KEY) = false ->
  load_sid env ls = (mint env, <[SID_KEY := mint env]> ls).
Proof. intros Hfalsy. unfold load_sid. now rewrite Hfalsy. Qed.

(** C7 (amended).  A non-empty stored value is returned as it is and the
    storage is left alone; when the key is absent, or holds the empty
    string, a token is minted ([crypto.randomUUID()] when it exists, the
    clock reading otherwise) and written back before it is returned.  As
    the minted token is not empty, a second run over the resulting storage
    returns the same identifier and writes nothing, whatever the random
    source and the clock give then. *)
Theorem load_sid_stable (env1 env2 : browser) (ls : gmap jsstring jsstring) :
  randomUUID env1 <> Some [] ->
  (forall s : jsstring,
     ls !! SID_KEY = Some s -> s <> [] -> load_sid env1 ls = (s, ls))
  /\ (truthy_item (ls !! SID_KEY) = false ->
      load_sid env1 ls = (mint env1, <[SID_KEY := mint env1]> ls))
  /\ load_sid env2 (snd (load_sid env1 ls)) = load_sid env1 ls.
Proof.
  intros Huuid. split; [intros s; apply load_sid_present|].
  split; [apply load_sid_absent|].
  destruct (truthy_item (ls !! SID_KEY)) eqn:Hitem.
  - destruct (ls !! SID_KEY) as [s|] eqn:Hs; [|discriminate].
    cbn [truthy_item] in Hitem. apply negb_true_iff in Hitem.
    apply bool_decide_eq_false in Hitem.
    rewrite (load_sid_present env1 ls s Hs Hitem). cbn [snd].
    now apply load_sid_present.
  - rewrite (load_sid_absent env1 ls Hitem). cbn [snd].
    apply load_sid_present; [apply lookup_insert_eq|].
    now apply mint_nonempty.
Qed.

(** ** Sending while a send is pending *)

(** A click does not reach the handler while the button is disabled. *)
Lemma click_while_disabled (p : page) :
  sendBtn_disabled p = true -> dispatch Click p = (Normal tt, p).
Proof.
  intros Hd. unfold dispatch, mbind, task_bind, reads. now rewrite Hd.
Qed.

(** The keydown listener calls the handler whatever the state of the
    button: with text in the field a second request leaves. *)
Lemma enter_while_disabled (p : page) :
  trim (inputEl_value p) <> [] ->
  let p' := step p (KeyDown (lit "Enter") false) in
  in_flight p'
  = in_flight p ++ [sendMessage_request (trim (inputEl_value p)) (sid p)]
  /\ chatBox_innerHTML p'
     = chatBox_innerHTML p
       ++ bubble (lit "user-message")
                 (sanitizeHTML (VStr (trim (inputEl_value p)))).
Proof.
  intros Htext p'. subst p'. unfold step. cbn [dispatch].
  change (bool_decide (lit "Enter" = lit "Enter") && negb false) with true.
  cbn match. rewrite (handleSend_begin_send p Htext). now split.
Qed.

End Properties.

(** * Instances of the properties *)

(** C1.  The page is taken into the pending state by a click on "hi"; the
    user types "again" and presses Enter.  The button is disabled and one
    request is in flight, a click would do nothing, and yet the key press
    appends a second user bubble and puts a second request in flight. *)
Theorem enter_while_pending_sends_again :
  let p := run [Typed (lit "hi"); Click; Typed (lit "again")]
               (fresh_page (lit "s")) in
  Pending p
  /\ in_flight p = [sendMessage_request (lit "hi") (lit "s")]
  /\ step p Click = p
  /\ let p' := step p (KeyDown (lit "Enter") false) in
     in_flight p'
     = [sendMessage_request (lit "hi") (lit "s");
        sendMessage_request (lit "again") (lit "s")]
     /\ chatBox_innerHTML p'
        = chatBox_innerHTML p ++ bubble (lit "user-message") (lit "again").
Proof.
  repeat split; try reflexivity. vm_compute. discriminate.
Qed.

(** C3, as stated, fails on a body whose [error] field is the empty string:
    the field is present, and the rejection carries "HTTP 500". *)
Lemma sendMessage_empty_error_field :
  let r := Response 500 (Some (VObj [(lit "error", VStr [])])) in
  sendMessage_settle r = Throw {| message := lit "HTTP 500" |}
  /\ sendMessage_as_described r = Throw {| message := [] |}
  /\ sendMessage_settle r <> sendMessage_as_described r.
Proof.
  repeat split. intros Heq. vm_compute in Heq. discriminate Heq.
Qed.

(** C4, as stated, fails for the message "HTTP 500": the text of the bubble
    is not the message but the prefixed one. *)
Lemma failure_bubble_is_not_the_bare_message :
  let r : fetch_result := Response 500 None in
  let p := fresh_page (lit "s") in
  sendMessage_settle r = Throw {| message := lit "HTTP 500" |}
  /\ chatBox_innerHTML (snd (handleSend_settle r p))
     = bubble (lit "bot-message error")
              (lit "Error contacting the AI Advisor: HTTP 500")
  /\ chatBox_innerHTML (snd (handleSend_settle r p))
     <> chatBox_innerHTML p
        ++ bubble (lit "bot-message error") (formatResponse (VStr (lit "HTTP 500"))).
Proof.
  repeat split. intros Heq. vm_compute in Heq. discriminate Heq.
Qed.

(** C5, as stated, fails for a carriage return: it is read back as a line
    feed.  U+0000 is not read back at all. *)
Lemma carriage_return_does_not_round_trip :
  sanitizeHTML (VStr [13]) = [13]
  /\ read_text (sanitizeHTML (VStr [13])) = Some [10]
  /\ read_text (sanitizeHTML (VStr [13])) <> Some [13]
  /\ read_text (sanitizeHTML (VStr [0])) = Some [].
Proof.
  repeat split. intros Heq. vm_compute in Heq. discriminate Heq.
Qed.

(** C7, as stated, fails when the stored value is the empty string: it is
    present, and it is replaced by a minted token. *)
Lemma empty_stored_sid_is_replaced :
  let env := {| randomUUID := None; Date_now := 1700000000000 |} in
  let ls : gmap jsstring jsstring := {[ SID_KEY := [] ]} in
  ls !! SID_KEY = Some []
  /\ fst (load_sid env ls) = lit "1700000000000"
  /\ load_sid env ls <> ([], ls).
Proof.
  repeat split. intros Heq. apply (f_equal fst) in Heq.
  vm_compute in Heq. discriminate Heq.
Qed.

(** ** The conditional properties at concrete inputs *)

Lemma sanitizeHTML_round_trip_witness :
  no_cr_nul (lit "<b>Tom & Jerry</b>") = true
  /\ read_text (sanitizeHTML (VStr (lit "<b>Tom & Jerry</b>")))
     = Some (lit "<b>Tom & Jerry</b>").
Proof.
  split; [reflexivity|].
  exact (proj1 (sanitizeHTML_round_trip (lit "<b>Tom & Jerry</b>") eq_refl)).
Defined.

Lemma blank_send_is_noop_witness :
  let p := set_inputEl_value (lit "   ") (fresh_page (lit "s")) in
  forallb isWhiteSpace (inputEl_value p) = true
  /\ dispatch Click p = (Normal tt, p).
Proof.
  split; [reflexivity|].
  apply blank_send_is_noop; [reflexivity|now left].
Defined.

Lemma input_cleared_and_not_restored_witness :
  let p := set_inputEl_value (lit " hello ") (fresh_page (lit "s")) in
  let r := Response 500 None in
  trim (inputEl_value p) <> []
  /\ inputEl_value (snd (handleSend_settle r (snd (handleSend_begin p)))) = [].
Proof.
  assert (Htext : trim (inputEl_value
            (set_inputEl_value (lit " hello ") (fresh_page (lit "s")))) <> [])
    by (vm_compute; discriminate).
  split; [exact Htext|].
  exact (proj1 (proj2 (proj2 (proj2
    (input_cleared_and_not_restored _ (Response 500 None) Htext))))).
Defined.

Lemma load_sid_stable_witness :
  let env1 := {| randomUUID := Some (lit "3f2a"); Date_now := 1 |} in
  let env2 := {| randomUUID := Some (lit "9c41"); Date_now := 2 |} in
  randomUUID env1 <> Some []
  /\ load_sid env2 (snd (load_sid env1 ∅)) = load_sid env1 ∅.
Proof.
  assert (Huuid : Some (lit "3f2a") <> Some ([] : jsstring)) by discriminate.
  split; [exact Huuid|].
  exact (proj2 (proj2 (load_sid_stable
    {| randomUUID := Some (lit "3f2a"); Date_now := 1 |}
    {| randomUUID := Some (lit "9c41"); Date_now := 2 |} ∅ Huuid))).
Defined.

(** * Further properties *)

Section FurtherProperties.
Context {numbers : JSNumber} {engine : Engine}.

Ltac escape_unit_split c :=
  destruct (escape_unit_cases c)
    as [[-> ->]|[[-> ->]|[[-> ->]|[[-> ->]|(?&?&?&?& ->)]]]].

(** ** What [trim] keeps *)

Lemma trimStart_suffix (s : jsstring) :
  exists pre : jsstring,
    s = pre ++ trimStart s /\ forallb isWhiteSpace pre = true.
Proof.
  induction s as [|c s (pre & Hs & Hpre)]; [now exists []|].
  cbn [trimStart]. destruct (isWhiteSpace c) eqn:Hc.
  - exists (c :: pre). cbn [forallb]. rewrite Hc, Hpre.
    split; [|reflexivity]. cbn. now rewrite <- Hs.
  - now exists [].
Qed.

Lemma forallb_rev_blank (s : jsstring) :
  forallb isWhiteSpace s = true -> forallb isWhiteSpace (rev s) = true.
Proof.
  rewrite !forallb_forall. intros Hs c Hc. apply Hs. now apply in_rev.
Qed.

Lemma trimEnd_prefix (s : jsstring) :
  exists post : jsstring,
    s = trimEnd s ++ post /\ forallb isWhiteSpace post = true.
Proof.
  unfold trimEnd. destruct (trimStart_suffix (rev s)) as (pre & Hs & Hpre).
  exists (rev pre). split; [|now apply forallb_rev_blank].
  rewrite <- rev_app_distr, <- Hs. now rewrite rev_involutive.
Qed.

(** The trimmed text sits in the original between two blank margins. *)
Lemma trim_decompose (s : jsstring) :
  exists pre post : jsstring,
    s = pre ++ trim s ++ post
    /\ forallb isWhiteSpace pre = true
    /\ forallb isWhiteSpace post = true.
Proof.
  destruct (trimStart_suffix s) as (pre & Hs & Hpre).
  destruct (trimEnd_prefix (trimStart s)) as (post & Ht & Hpost).
  exists pre, post. unfold trim. now rewrite <- Ht.
Qed.

Lemma trimEnd_last (s : jsstring) :
  trimEnd s <> [] -> kept_by_trim (last (trimEnd s)) = true.
Proof.
  unfold trimEnd. destruct (trimStart (rev s)) as [|c w] eqn:Hw; [easy|].
  intros _. cbn [rev]. rewrite last_snoc. cbn.
  now rewrite (trimStart_head _ _ _ Hw).
Qed.

Lemma trim_is_trimmed (s : jsstring) :
  trim s <> [] -> is_trimmed (trim s) = true.
Proof.
  intros Hne. unfold is_trimmed.
  pose proof (trimEnd_last (trimStart s) Hne) as Hlast.
  fold (trim s) in Hlast. rewrite Hlast, andb_true_r.
  destruct (trimEnd_prefix (trimStart s)) as (post & Ht & _).
  fold (trim s) in Ht.
  destruct (trim s) as [|c m] eqn:Hm; [contradiction|].
  cbn. now rewrite (trimStart_head s c (m ++ post) Ht).
Qed.

(** X1.  A send on an input that is not blank issues one request and renders
    one user bubble, both for the same text: the content of the field
    without its blank margins, which starts and ends with a code unit that
    is not whitespace. *)
Theorem send_carries_trimmed_text (p : page) :
  forallb isWhiteSpace (inputEl_value p) = false ->
  exists pre m post : jsstring,
    inputEl_value p = pre ++ m ++ post
    /\ forallb isWhiteSpace pre = true
    /\ forallb isWhiteSpace post = true
    /\ is_trimmed m = true
    /\ in_flight (snd (handleSend_begin p))
       = in_flight p ++ [sendMessage_request m (sid p)]
    /\ chatBox_innerHTML (snd (handleSend_begin p))
       = chatBox_innerHTML p ++ bubble (lit "user-message") (escape m).
Proof.
  intros Hinput.
  assert (Htext : trim (inputEl_value p) <> []).
  { intros Hnil%trim_nil_iff. congruence. }
  destruct (trim_decompose (inputEl_value p)) as (pre & post & Hs & Hpre & Hpost).
  exists pre, (trim (inputEl_value p)), post.
  rewrite (handleSend_begin_send p Htext). cbn [snd in_flight chatBox_innerHTML].
  rewrite sanitizeHTML_VStr.
  repeat split; try assumption. now apply trim_is_trimmed.
Qed.

(** ** The shape of a step *)

(** Every event leaves the page as it is, or starts a send, or writes the
    field, or settles one request with one bot bubble, or greets. *)
Lemma step_shape (ev : event) (p : page) :
  step p ev = p
  \/ (trim (inputEl_value p) <> []
      /\ step p ev
         = {| chatBox_innerHTML :=
                chatBox_innerHTML p
                ++ bubble (lit "user-message")
                          (sanitizeHTML (VStr (trim (inputEl_value p))));
              chatBox_scrolls := S (chatBox_scrolls p);
              inputEl_value := [];
              inputEl_focused := inputEl_focused p;
              sendBtn_disabled := true;
              console_errors := console_errors p;
              sid := sid p;
              in_flight :=
                in_flight p
                ++ [sendMessage_request (trim (inputEl_value p)) (sid p)] |})
  \/ (exists text : jsstring, step p ev = set_inputEl_value text p)
  \/ (exists (i : nat) (req : request) (text : value) (isError : bool)
             (logged : list Error),
        in_flight p !! i = Some req
        /\ step p ev
           = {| chatBox_innerHTML :=
                  chatBox_innerHTML p
                  ++ bubble (if isError then lit "bot-message error"
                             else lit "bot-message")
                            (formatResponse text);
                chatBox_scrolls := S (chatBox_scrolls p);
                inputEl_value := inputEl_value p;
                inputEl_focused := true;
                sendBtn_disabled := false;
                console_errors := console_errors p ++ logged;
                sid := sid p;
                in_flight := delete i (in_flight p) |})
  \/ step p ev
     = {| chatBox_innerHTML :=
            chatBox_innerHTML p
            ++ bubble (lit "bot-message") (formatResponse (VStr greeting));
          chatBox_scrolls := S (chatBox_scrolls p);
          inputEl_value := inputEl_value p;
          inputEl_focused := inputEl_focused p;
          sendBtn_disabled := sendBtn_disabled p;
          console_errors := console_errors p;
          sid := sid p;
          in_flight := in_flight p |}.
Proof.
  assert (Hbegin : snd (handleSend_begin p) = p
          \/ (trim (inputEl_value p) <> []
              /\ snd (handleSend_begin p)
                 = {| chatBox_innerHTML :=
                        chatBox_innerHTML p
                        ++ bubble (lit "user-message")
                             (sanitizeHTML (VStr (trim (inputEl_value p))));
                      chatBox_scrolls := S (chatBox_scrolls p);
                      inputEl_value := [];
                      inputEl_focused := inputEl_focused p;
                      sendBtn_disabled := true;
                      console_errors := console_errors p;
                      sid := sid p;
                      in_flight :=
                        in_flight p
                        ++ [sendMessage_request (trim (inputEl_value p))
                                                (sid p)] |})).
  { destruct (decide (trim (inputEl_value p) = [])) as [Hb|Ht].
    - left. now rewrite (handleSend_begin_blank p Hb).
    - right. split; [exact Ht|]. now rewrite (handleSend_begin_send p Ht). }
  unfold step. destruct ev as [|key shiftKey|text|i r|found].
  - unfold dispatch, mbind, task_bind, reads.
    destruct (sendBtn_disabled p); [now left|].
    destruct Hbegin as [Hb|Hs]; [now left|now right; left].
  - unfold dispatch.
    destruct (bool_decide (key = lit "Enter") && negb shiftKey); [|now left].
    destruct Hbegin as [Hb|Hs]; [now left|now right; left].
  - right; right; left. now exists text.
  - unfold dispatch, mbind, task_bind, reads.
    destruct (in_flight p !! i) as [req|] eqn:Hreq; [|now left].
    right; right; right; left. cbn [modify].
    destruct (handleSend_settle_cases r
                (set_in_flight (delete i (in_flight p)) p))
      as (text & isError & logged & ->).
    now exists i, req, text, isError, logged.
  - destruct found; [now left|]. now right; right; right; right.
Qed.

Lemma run_cons (ev : event) (evs : list event) (p : page) :
  run (ev :: evs) p = run evs (step p ev).
Proof. reflexivity. Qed.

(** X2.  The session identifier of the page never changes, and every request
    in flight is a POST of JSON to /chat that carries this identifier and a
    message that is not empty and has no blank margin. *)
Theorem in_flight_requests_are_chat_requests (evs : list event) (p : page) :
  Forall (chat_request (sid p)) (in_flight p) ->
  sid (run evs p) = sid p
  /\ Forall (chat_request (sid p)) (in_flight (run evs p)).
Proof.
  revert p. induction evs as [|ev evs IH]; intros p Hp; [now split|].
  rewrite run_cons.
  assert (Hstep : sid (step p ev) = sid p
                  /\ Forall (chat_request (sid p)) (in_flight (step p ev))).
  { destruct (step_shape ev p)
      as [->|[[Ht ->]|[[text ->]|[(i & req & text & isError & logged & _ & ->)| ->]]]];
      cbn [sid in_flight set_inputEl_value]; split; try reflexivity;
      try assumption.
    - apply Forall_app. split; [assumption|].
      constructor; [|constructor].
      repeat split. cbn. now apply trim_is_trimmed.
    - now apply Forall_delete. }
  destruct Hstep as [Hsid Hreqs]. rewrite <- Hsid in Hreqs.
  destruct (IH (step p ev) Hreqs) as [Hsid' Hreqs'].
  rewrite Hsid', Hsid in *. now split.
Qed.

(** X3.  The button is never left disabled with nothing in flight: from a
    page where a disabled button goes with a pending request, every run of
    events leads to such a page. *)
Theorem disabled_only_while_in_flight (evs : list event) (p : page) :
  (sendBtn_disabled p = true -> in_flight p <> []) ->
  sendBtn_disabled (run evs p) = true -> in_flight (run evs p) <> [].
Proof.
  revert p. induction evs as [|ev evs IH]; intros p Hp; [exact Hp|].
  rewrite run_cons. apply IH.
  destruct (step_shape ev p)
    as [->|[[Ht ->]|[[text ->]|[(i & req & text & isError & logged & _ & ->)| ->]]]];
    cbn [sendBtn_disabled in_flight set_inputEl_value]; try assumption.
  - intros _ Hnil. now apply app_eq_nil in Hnil as [_ Hnil].
  - discriminate.
Qed.

(** What a run of events writes: sanitized bubbles, and one scroll for each
    of them. *)
Lemma run_writes (evs : list event) (p : page) :
  exists bubbles : list jsstring,
    chatBox_innerHTML (run evs p) = chatBox_innerHTML p ++ concat bubbles
    /\ Forall sanitized_bubble bubbles
    /\ chatBox_scrolls (run evs p) = (chatBox_scrolls p + length bubbles)%nat.
Proof.
  revert p. induction evs as [|ev evs IH]; intros p.
  { exists []. cbn. rewrite app_nil_r. repeat split; [constructor|lia]. }
  rewrite run_cons. destruct (IH (step p ev)) as (rest & Hm & Hs & Hn).
  assert (Hstep : exists first : list jsstring,
            chatBox_innerHTML (step p ev) = chatBox_innerHTML p ++ concat first
            /\ Forall sanitized_bubble first
            /\ chatBox_scrolls (step p ev)
               = (chatBox_scrolls p + length first)%nat).
  { destruct (step_shape ev p)
      as [->|[[Ht ->]|[[text ->]|[(i & req & text & isError & logged & _ & ->)| ->]]]];
      cbn [chatBox_innerHTML chatBox_scrolls set_inputEl_value].
    - exists []. cbn. rewrite app_nil_r. repeat split; [constructor|lia].
    - eexists [_]. cbn [concat length]. rewrite app_nil_r.
      repeat split; [|lia]. constructor; [apply sanitized_user|constructor].
    - exists []. cbn. rewrite app_nil_r. repeat split; [constructor|lia].
    - eexists [_]. cbn [concat length]. rewrite app_nil_r.
      repeat split; [|lia]. constructor; [apply sanitized_bot|constructor].
    - eexists [_]. cbn [concat length]. rewrite app_nil_r.
      repeat split; [|lia].
      constructor; [apply (sanitized_bot (VStr greeting) false)|constructor]. }
  destruct Hstep as (first & Hm1 & Hs1 & Hn1).
  exists (first ++ rest). rewrite Hm, Hm1, Hn, Hn1, concat_app, length_app, app_assoc.
  repeat split; [now apply Forall_app|lia].
Qed.

(** ** Keys *)

Lemma ignored_key_step (ev : event) (p : page) :
  ignored_key ev = true -> step p ev = p.
Proof.
  destruct ev as [|key shiftKey|text|i r|found]; try discriminate.
  cbn [ignored_key]. intros Hk%negb_true_iff.
  unfold step, dispatch. now rewrite Hk.
Qed.

(** X5.  Key presses other than Enter, and Enter with shift held, are
    invisible: a run of events leads to the same page as the run without
    them. *)
Theorem ignored_keys_change_nothing (evs : list event) (p : page) :
  run evs p = run (List.filter (fun ev => negb (ignored_key ev)) evs) p.
Proof.
  revert p. induction evs as [|ev evs IH]; intros p; [reflexivity|].
  rewrite run_cons. cbn [List.filter].
  destruct (ignored_key ev) eqn:Hk; cbn [negb].
  - rewrite (ignored_key_step ev p Hk). apply IH.
  - rewrite run_cons. apply IH.
Qed.

(** While the button is enabled, Enter without shift does what a click
    does. *)
Lemma enter_is_click_when_enabled (p : page) :
  sendBtn_disabled p = false ->
  dispatch (KeyDown (lit "Enter") false) p = dispatch Click p.
Proof.
  intros He. unfold dispatch, mbind, task_bind, reads. now rewrite He.
Qed.

(** ** The steps of an exchange *)

Lemma click_sends (p : page) :
  sendBtn_disabled p = false ->
  trim (inputEl_value p) <> [] ->
  step p Click
  = {| chatBox_innerHTML :=
         chatBox_innerHTML p
         ++ bubble (lit "user-message") (escape (trim (inputEl_value p)));
       chatBox_scrolls := S (chatBox_scrolls p);
       inputEl_value := [];
       inputEl_focused := inputEl_focused p;
       sendBtn_disabled := true;
       console_errors := console_errors p;
       sid := sid p;
       in_flight :=
         in_flight p ++ [sendMessage_request (trim (inputEl_value p)) (sid p)] |}.
Proof.
  intros He Ht. unfold step, dispatch, mbind, task_bind, reads. rewrite He.
  rewrite (handleSend_begin_send p Ht). cbn [snd].
  now rewrite sanitizeHTML_VStr.
Qed.

Lemma settle_last (q : page) (l : list request) (req : request)
    (r : fetch_result) :
  in_flight q = l ++ [req] ->
  step q (Settled (length l) r)
  = snd (handleSend_settle r (set_in_flight l q)).
Proof.
  intros Hq. unfold step, dispatch, mbind, task_bind, reads.
  rewrite Hq, list_lookup_middle by reflexivity.
  cbn [modify]. now rewrite delete_middle, app_nil_r.
Qed.

(** ** The formatted text, line by line *)

Lemma lines_nonempty (s : jsstring) : lines s <> [].
Proof.
  destruct s as [|c s]; [discriminate|]. cbn [lines].
  destruct (c =? 10); [discriminate|]. destruct (lines s); discriminate.
Qed.

Lemma join_cons_cons (sep l l' : jsstring) (ls : list jsstring) :
  join sep (l :: l' :: ls) = l ++ sep ++ join sep (l' :: ls).
Proof. reflexivity. Qed.

Lemma join_cons_unit (sep : jsstring) (c : N) (l : jsstring)
    (ls : list jsstring) :
  join sep ((c :: l) :: ls) = c :: join sep (l :: ls).
Proof. destruct ls; reflexivity. Qed.

Lemma replace_newlines_join (t : jsstring) :
  replace_newlines t = join (lit "<br>") (lines t).
Proof.
  induction t as [|c t IH]; [reflexivity|].
  change (replace_newlines (c :: t))
    with ((if c =? 10 then lit "<br>" else [c]) ++ replace_newlines t).
  cbn [lines]. rewrite IH. destruct (c =? 10).
  - destruct (lines t) as [|l ls] eqn:Hl; [now apply lines_nonempty in Hl|].
    now rewrite join_cons_cons.
  - destruct (lines t) as [|l ls] eqn:Hl; [now apply lines_nonempty in Hl|].
    now rewrite join_cons_unit.
Qed.

Lemma join_lines (s : jsstring) : join [10] (lines s) = s.
Proof.
  induction s as [|c s IH]; [reflexivity|].
  cbn [lines]. destruct (N.eqb_spec c 10) as [->|Hc].
  - destruct (lines s) as [|l ls] eqn:Hl; [now apply lines_nonempty in Hl|].
    rewrite join_cons_cons, IH. reflexivity.
  - destruct (lines s) as [|l ls] eqn:Hl; [now apply lines_nonempty in Hl|].
    now rewrite join_cons_unit, IH.
Qed.

Lemma lines_no_newline (s : jsstring) :
  Forall (fun l => forallb (fun c => negb (c =? 10)) l = true) (lines s).
Proof.
  induction s as [|c s IH]; [repeat constructor|].
  cbn [lines]. destruct (c =? 10) eqn:Hc; [now constructor|].
  destruct (lines s) as [|l ls]; [repeat constructor; cbn; now rewrite Hc|].
  inversion IH as [|? ? Hl Hls]; subst. constructor; [|assumption].
  cbn [forallb]. now rewrite Hc, Hl.
Qed.

Lemma lines_unit_app (u t : jsstring) :
  forallb (fun c => negb (c =? 10)) u = true ->
  lines (u ++ t)
  = match lines t with
    | l :: ls => (u ++ l) :: ls
    | [] => [u]
    end.
Proof.
  induction u as [|c u IH]; cbn [forallb app lines].
  - intros _. destruct (lines t) as [|l ls] eqn:Hl; [|reflexivity].
    now apply lines_nonempty in Hl.
  - intros [Hc Hu]%andb_true_iff. apply negb_true_iff in Hc.
    rewrite Hc, (IH Hu). now destruct (lines t).
Qed.

Lemma lines_escape (s : jsstring) : lines (escape s) = map escape (lines s).
Proof.
  induction s as [|c s IH]; [reflexivity|].
  change (escape (c :: s)) with (escape_unit c ++ escape s).
  cbn [lines]. destruct (N.eqb_spec c 10) as [->|Hc].
  - change (escape_unit 10 ++ escape s) with (10 :: escape s).
    cbn [lines N.eqb Pos.eqb map]. now rewrite IH.
  - rewrite lines_unit_app.
    + rewrite IH. destruct (lines s) as [|l ls] eqn:Hl;
        [now apply lines_nonempty in Hl|].
      cbn [map]. f_equal.
    + escape_unit_split c; try reflexivity. cbn.
      apply N.eqb_neq in Hc. now rewrite Hc.
Qed.

(** X8.  The formatted text is the escaped lines of the text joined by
    break elements: the lines are the text split at its line feeds, so
    there is one break for each line feed, and an escaped line holds no
    line feed and no angle bracket. *)
Theorem formatResponse_joins_escaped_lines (s : jsstring) :
  formatResponse (VStr s) = join (lit "<br>") (map escape (lines s))
  /\ join [10] (lines s) = s
  /\ Forall (fun l => forallb (fun c => negb (c =? 10)) l = true) (lines s)
  /\ Forall
       (fun l => forallb (fun c => negb (c =? 60) && negb (c =? 62))
                         (escape l) = true)
       (lines s).
Proof.
  repeat split.
  - unfold formatResponse.
    now rewrite sanitizeHTML_VStr, replace_newlines_join, lines_escape.
  - apply join_lines.
  - apply lines_no_newline.
  - apply Forall_forall. intros l _. apply escape_no_angle.
Qed.

(** ** Text that needs no escaping *)

Lemma escape_unit_length (c : N) : (1 <= length (escape_unit c))%nat.
Proof. escape_unit_split c; cbn; lia. Qed.

Lemma escape_length (s : jsstring) : (length s <= length (escape s))%nat.
Proof.
  induction s as [|c s IH]; [reflexivity|].
  change (escape (c :: s)) with (escape_unit c ++ escape s).
  rewrite length_app. pose proof (escape_unit_length c). cbn [length]. lia.
Qed.

Lemma escape_length_grows (s : jsstring) :
  needs_no_escape s = false -> (length s < length (escape s))%nat.
Proof.
  induction s as [|c s IH]; [discriminate|].
  change (escape (c :: s)) with (escape_unit c ++ escape s).
  rewrite length_app. cbn [needs_no_escape forallb length].
  fold (needs_no_escape s). pose proof (escape_length s).
  escape_unit_split c; cbn [length lit map list_ascii_of_string]; try lia.
  intros Hs. apply andb_false_iff in Hs as [Hc|Hs]; [|specialize (IH Hs); lia].
  apply negb_false_iff in Hc.
  repeat (apply orb_true_iff in Hc as [Hc|Hc]);
    apply N.eqb_eq in Hc; contradiction.
Qed.

Lemma escape_plain (s : jsstring) : needs_no_escape s = true -> escape s = s.
Proof.
  induction s as [|c s IH]; [reflexivity|].
  cbn [needs_no_escape forallb]. fold (needs_no_escape s).
  intros [Hc Hs]%andb_true_iff.
  change (escape (c :: s)) with (escape_unit c ++ escape s).
  rewrite (IH Hs). apply negb_true_iff in Hc.
  escape_unit_split c; try discriminate Hc. reflexivity.
Qed.

(** X9.  The sanitizer returns a text as it is exactly when the text holds
    none of the four code units [&], [<], [>] and U+00A0; every other text
    comes out longer. *)
Theorem sanitizeHTML_fixes_plain_text (s : jsstring) :
  (sanitizeHTML (VStr s) = s <-> needs_no_escape s = true)
  /\ (length s <= length (sanitizeHTML (VStr s)))%nat.
Proof.
  rewrite sanitizeHTML_VStr. split; [|apply escape_length].
  split; [|apply escape_plain].
  intros Heq. destruct (needs_no_escape s) eqn:Hs; [reflexivity|].
  apply escape_length_grows in Hs. rewrite Heq in Hs. lia.
Qed.

(** ** The stored identifier *)

(** X10.  After the script has initialised [sid], the storage holds the
    identifier it uses under its key, and every other key is as it was. *)
Theorem load_sid_writes_only_its_key (env : browser)
    (ls : gmap jsstring jsstring) :
  snd (load_sid env ls) !! SID_KEY = Some (fst (load_sid env ls))
  /\ (forall k : jsstring,
        k <> SID_KEY -> snd (load_sid env ls) !! k = ls !! k).
Proof.
  destruct (truthy_item (ls !! SID_KEY)) eqn:Hitem.
  - destruct (ls !! SID_KEY) as [s|] eqn:Hs; [|discriminate].
    cbn [truthy_item] in Hitem. apply negb_true_iff in Hitem.
    apply bool_decide_eq_false in Hitem.
    rewrite (load_sid_present env ls s Hs Hitem). now split.
  - rewrite (load_sid_absent env ls Hitem). cbn [fst snd]. split.
    + apply lookup_insert_eq.
    + intros k Hk. now apply lookup_insert_ne.
Qed.

(** ** What the container reports *)

Lemma normalize_app_bounded (n : nat) :
  forall a b : jsstring,
    (length a <= n)%nat -> head b <> Some 10 ->
    normalize_newlines (a ++ b) = normalize_newlines a ++ normalize_newlines b.
Proof.
  induction n as [|n IH]; intros [|c a] b Hlen Hb; try reflexivity;
    cbn [length] in Hlen; [lia|].
  destruct (N.eq_dec c 13) as [->|Hc].
  - destruct a as [|d a].
    + cbn [app]. destruct b as [|d b]; [reflexivity|].
      rewrite normalize_cr_other; [reflexivity|].
      intros ->. now apply Hb.
    + destruct (N.eq_dec d 10) as [->|Hd].
      * cbn [app]. rewrite !normalize_cr_lf. cbn [app]. f_equal.
        apply IH; [cbn [length] in Hlen; lia|assumption].
      * change ((13 :: d :: a) ++ b) with (13 :: d :: (a ++ b)).
        rewrite !(normalize_cr_other d) by assumption.
        cbn [app]. f_equal.
        change (d :: a ++ b) with ((d :: a) ++ b).
        apply IH; [lia|assumption].
  - cbn [app]. rewrite !(normalize_other c) by assumption.
    cbn [app]. f_equal. apply IH; [lia|assumption].
Qed.

(** Preprocessing looks one code unit ahead, after a carriage return; it
    works piece by piece where the second piece does not start with a line
    feed. *)
Lemma reserialize_app (a b : jsstring) :
  head b <> Some 10 -> reserialize (a ++ b) = reserialize a ++ reserialize b.
Proof.
  intros Hb. unfold reserialize, drop_nul.
  rewrite (normalize_app_bounded (length a) a b (le_n _) Hb).
  apply List.filter_app.
Qed.

Lemma reserialize_plain (s : jsstring) :
  no_cr_nul s = true -> reserialize s = s.
Proof. apply no_cr_nul_fixed. Qed.

Lemma reserialize_cons (c : N) (s : jsstring) :
  c <> 13 -> c <> 0 -> reserialize (c :: s) = c :: reserialize s.
Proof.
  intros Hc H0. unfold reserialize. rewrite normalize_other by assumption.
  cbn [drop_nul List.filter]. apply N.eqb_neq in H0. now rewrite H0.
Qed.

Lemma normalize_no_cr_bounded (n : nat) :
  forall s : jsstring, (length s <= n)%nat ->
    forallb (fun c => negb (c =? 13)) (normalize_newlines s) = true.
Proof.
  induction n as [|n IH]; intros [|c s] Hlen; try reflexivity;
    cbn [length] in Hlen; [lia|].
  destruct (N.eq_dec c 13) as [->|Hc].
  - destruct s as [|d s]; [reflexivity|].
    destruct (N.eq_dec d 10) as [->|Hd].
    + rewrite normalize_cr_lf. cbn [forallb].
      rewrite IH by (cbn [length] in Hlen; lia). reflexivity.
    + rewrite normalize_cr_other by assumption. cbn [forallb].
      rewrite IH by lia. reflexivity.
  - rewrite normalize_other by assumption. cbn [forallb].
    rewrite IH by lia. apply N.eqb_neq in Hc. now rewrite Hc.
Qed.

(** What the container reports holds no carriage return and no U+0000. *)
Lemma reserialize_clean (s : jsstring) : no_cr_nul (reserialize s) = true.
Proof.
  unfold reserialize, drop_nul, no_cr_nul.
  pose proof (normalize_no_cr_bounded (length s) s (le_n _)) as Hcr.
  induction (normalize_newlines s) as [|c t IH]; [reflexivity|].
  cbn [forallb] in Hcr. apply andb_true_iff in Hcr as [Hc Ht].
  cbn [List.filter]. destruct (c =? 0) eqn:H0; cbn [negb]; [now apply IH|].
  cbn [forallb]. now rewrite Hc, H0, (IH Ht).
Qed.

Lemma reserialize_idem (s : jsstring) :
  reserialize (reserialize s) = reserialize s.
Proof. apply reserialize_plain, reserialize_clean. Qed.

Lemma drop_nul_escape (s : jsstring) : drop_nul (escape s) = escape (drop_nul s).
Proof.
  induction s as [|c s IH]; [reflexivity|].
  change (escape (c :: s)) with (escape_unit c ++ escape s).
  unfold drop_nul in *. rewrite List.filter_app, IH.
  escape_unit_split c; try reflexivity.
  cbn [List.filter]. destruct (c =? 0); cbn [negb app]; [reflexivity|].
  change (escape (c :: List.filter (fun c0 : N => negb (c0 =? 0)) s))
    with (escape_unit c
          ++ escape (List.filter (fun c0 : N => negb (c0 =? 0)) s)).
  unfold escape_unit.
  repeat match goal with
         | Hne : c <> ?k |- context [c =? ?k] =>
             rewrite (proj2 (N.eqb_neq c k) Hne)
         end.
  reflexivity.
Qed.

(** The serializer writes the text of the tree as [escape] does: what the
    container reports for escaped text is the escaped text of the tree. *)
Lemma reserialize_escape (s : jsstring) :
  reserialize (escape s) = escape (reserialize s).
Proof.
  unfold reserialize. now rewrite normalize_escape, drop_nul_escape.
Qed.

Lemma bubble_head (cls body : jsstring) : head (bubble cls body) = Some 60.
Proof. reflexivity. Qed.

Lemma reserialize_bubble (cls body : jsstring) :
  no_cr_nul cls = true ->
  reserialize (bubble cls body) = bubble cls (reserialize body).
Proof.
  intros Hcls.
  assert (Hsplit : forall b : jsstring,
            bubble cls b
            = (lit "<div class=" ++ [34] ++ cls ++ [34])
              ++ 62 :: (b ++ lit "</div>")).
  { intros b. unfold bubble. now rewrite <- !app_assoc. }
  rewrite !Hsplit.
  rewrite reserialize_app by discriminate.
  rewrite reserialize_cons by discriminate.
  rewrite (reserialize_app body) by discriminate.
  rewrite (reserialize_plain (lit "</div>")) by reflexivity.
  f_equal. apply reserialize_plain.
  unfold no_cr_nul in *. rewrite !forallb_app, Hcls. reflexivity.
Qed.

Lemma bubble_class_plain (cls : jsstring) :
  bubble_class cls -> no_cr_nul cls = true.
Proof. now intros [->|[->| ->]]. Qed.

Lemma reserialize_join_br (ls : list jsstring) :
  reserialize (join (lit "<br>") ls) = join (lit "<br>") (map reserialize ls).
Proof.
  induction ls as [|l ls IH]; [reflexivity|].
  destruct ls as [|l' ls]; [reflexivity|].
  rewrite join_cons_cons. cbn [map]. rewrite join_cons_cons.
  rewrite reserialize_app by discriminate. f_equal.
  change (lit "<br>" ++ ?t) with (60 :: 98 :: 114 :: 62 :: t).
  rewrite !reserialize_cons by discriminate.
  now rewrite IH.
Qed.

Lemma formatResponse_of_string (text : value) :
  formatResponse text = formatResponse (VStr (ToString (nullish text (VStr [])))).
Proof.
  unfold formatResponse. now rewrite sanitizeHTML_escape, sanitizeHTML_VStr.
Qed.

(** What the container reports for a formatted text: the lines of the text
    as the tree holds them, escaped and separated by break elements. *)
Lemma reserialize_formatResponse (s : jsstring) :
  reserialize (formatResponse (VStr s))
  = join (lit "<br>") (map escape (map reserialize (lines s))).
Proof.
  unfold formatResponse.
  rewrite sanitizeHTML_VStr, replace_newlines_join, lines_escape.
  rewrite reserialize_join_br, !map_map. f_equal.
  apply map_ext. intros l. apply reserialize_escape.
Qed.

Lemma formatResponse_head (text : value) :
  head (formatResponse text) <> Some 10.
Proof.
  pose proof (replace_newlines_no_newline (sanitizeHTML text)) as Hno.
  unfold formatResponse. destruct (replace_newlines (sanitizeHTML text));
    [discriminate|].
  cbn [forallb] in Hno. apply andb_true_iff in Hno as [Hc _].
  intros [= ->]. discriminate Hc.
Qed.

(** Reading the property after [chatBox.innerHTML += markup] gives what the
    parser and the serializer make of the value read before followed by
    [markup]: the tree is the one parsed from the record of the writes. *)
Lemma chatBox_append_read_back (cls body : jsstring) (p : page) :
  chatBox_markup (snd (chatBox_append (bubble cls body) p))
  = reserialize (chatBox_markup p ++ bubble cls body).
Proof.
  unfold chatBox_markup, chatBox_append, modify.
  cbn [snd chatBox_innerHTML set_chatBox_innerHTML].
  rewrite !(reserialize_app _ (bubble cls body))
    by (rewrite bubble_head; discriminate).
  now rewrite reserialize_idem.
Qed.

Lemma markup_after_bubble (p p' : page) (cls body : jsstring) :
  no_cr_nul cls = true ->
  chatBox_innerHTML p' = chatBox_innerHTML p ++ bubble cls body ->
  chatBox_markup p' = chatBox_markup p ++ bubble cls (reserialize body).
Proof.
  intros Hcls Hp. unfold chatBox_markup. rewrite Hp.
  rewrite reserialize_app by (rewrite bubble_head; discriminate).
  now rewrite reserialize_bubble.
Qed.

Lemma sanitized_bubble_head (b : jsstring) :
  sanitized_bubble b -> head b = Some 60.
Proof. now intros []. Qed.

(** A sanitized bubble is shown as escaped texts between break elements. *)
Lemma sanitized_bubble_displayed (b : jsstring) :
  sanitized_bubble b -> displayed_bubble (reserialize b).
Proof.
  intros [text|text isError].
  - rewrite reserialize_bubble by reflexivity.
    rewrite sanitizeHTML_escape, reserialize_escape.
    apply (displayed _ [_]). now left.
  - rewrite reserialize_bubble by now destruct isError.
    rewrite formatResponse_of_string, reserialize_formatResponse.
    apply displayed. destruct isError; [now right; right|now right; left].
Qed.

Lemma reserialize_concat (bs : list jsstring) :
  Forall sanitized_bubble bs ->
  reserialize (concat bs) = concat (map reserialize bs).
Proof.
  induction 1 as [|b bs Hb Hbs IH]; [reflexivity|].
  cbn [concat map]. rewrite reserialize_app, IH; [reflexivity|].
  destruct Hbs as [|b' bs' Hb' _]; [discriminate|].
  cbn [concat]. destruct Hb'; discriminate.
Qed.

Lemma markup_after_bubbles (p p' : page) (bs : list jsstring) :
  Forall sanitized_bubble bs ->
  chatBox_innerHTML p' = chatBox_innerHTML p ++ concat bs ->
  chatBox_markup p' = chatBox_markup p ++ concat (map reserialize bs).
Proof.
  intros Hbs Hp. unfold chatBox_markup. rewrite Hp.
  rewrite reserialize_app, (reserialize_concat bs Hbs); [reflexivity|].
  destruct Hbs as [|b' bs' Hb' _]; [discriminate|].
  cbn [concat]. destruct Hb'; discriminate.
Qed.

Lemma displayed_after_reserialize (bs : list jsstring) :
  Forall sanitized_bubble bs -> Forall displayed_bubble (map reserialize bs).
Proof.
  induction 1 as [|b bs Hb _ IH]; [constructor|].
  cbn [map]. constructor; [now apply sanitized_bubble_displayed|exact IH].
Qed.

(** C2.  Whatever events reach the page, what the script writes to the
    container is a sequence of bubbles whose body is [sanitizeHTML] of the
    text (user bubbles) or [formatResponse] of it (bot bubbles, the error
    bubbles among them), where [formatResponse] is the break replacement
    applied to the sanitized text and sanitized text holds no angle
    bracket.  What the container then reports grows by these bubbles as the
    parser hands them back: each is a [div] around escaped texts separated
    by break elements. *)
Theorem inserted_text_is_sanitized (evs : list event) (p : page) :
  (exists written : list jsstring,
     chatBox_innerHTML (run evs p) = chatBox_innerHTML p ++ concat written
     /\ Forall sanitized_bubble written
     /\ chatBox_markup (run evs p)
        = chatBox_markup p ++ concat (map reserialize written)
     /\ Forall displayed_bubble (map reserialize written))
  /\ (forall text : value,
        formatResponse text = replace_newlines (sanitizeHTML text)
        /\ forallb (fun c => negb (c =? 60) && negb (c =? 62))
                   (sanitizeHTML text) = true).
Proof.
  split.
  - destruct (run_writes evs p) as (written & Hlog & Hsafe & _).
    exists written. split; [exact Hlog|]. split; [exact Hsafe|].
    split; [now apply markup_after_bubbles|].
    now apply displayed_after_reserialize.
  - intros text. split; [reflexivity|].
    rewrite sanitizeHTML_escape. apply escape_no_angle.
Qed.

(** C4 (amended).  When the transport fails with message [m], the handler
    writes one error-styled bot bubble whose text is the fixed prefix
    "Error contacting the AI Advisor: " followed by [m], or by
    "request failed" when [m] is empty, and logs the error.  The container
    reports this bubble with the lines of that text escaped and separated
    by break elements; the formatted message is part of what is written and,
    as the parser hands it back, of what is reported. *)
Theorem failure_bubble_text (r : fetch_result) (m : jsstring) (p : page) :
  sendMessage_settle r = Throw {| message := m |} ->
  let p' := snd (handleSend_settle r p) in
  chatBox_innerHTML p'
  = chatBox_innerHTML p
    ++ bubble (lit "bot-message error")
         (formatResponse
            (VStr (lit "Error contacting the AI Advisor: "
                   ++ or_else m (lit "request failed"))))
  /\ chatBox_markup p'
     = chatBox_markup p
       ++ bubble (lit "bot-message error")
            (join (lit "<br>")
               (map escape
                  (map reserialize
                     (lines (lit "Error contacting the AI Advisor: "
                             ++ or_else m (lit "request failed"))))))
  /\ (exists pre post : jsstring,
        chatBox_innerHTML p'
        = pre ++ formatResponse (VStr (or_else m (lit "request failed"))) ++ post)
  /\ (exists pre post : jsstring,
        chatBox_markup p'
        = pre
          ++ reserialize (formatResponse (VStr (or_else m (lit "request failed"))))
          ++ post)
  /\ console_errors p' = console_errors p ++ [{| message := m |}].
Proof.
  intros Hr p'.
  assert (Hlog : chatBox_innerHTML p'
                 = chatBox_innerHTML p
                   ++ bubble (lit "bot-message error")
                        (formatResponse
                           (VStr (lit "Error contacting the AI Advisor: "
                                  ++ or_else m (lit "request failed"))))).
  { subst p'. now rewrite (handleSend_settle_failure r _ p Hr). }
  assert (Hshown : chatBox_markup p'
                   = chatBox_markup p
                     ++ bubble (lit "bot-message error")
                          (reserialize
                             (formatResponse
                                (VStr (lit "Error contacting the AI Advisor: "
                                       ++ or_else m (lit "request failed")))))).
  { now apply markup_after_bubble. }
  assert (Hparts : formatResponse
                     (VStr (lit "Error contacting the AI Advisor: "
                            ++ or_else m (lit "request failed")))
                   = formatResponse (VStr (lit "Error contacting the AI Advisor: "))
                     ++ formatResponse (VStr (or_else m (lit "request failed")))).
  { unfold formatResponse.
    now rewrite !sanitizeHTML_VStr, escape_app, replace_newlines_app. }
  split; [exact Hlog|].
  split; [now rewrite Hshown, reserialize_formatResponse|].
  split; [|split].
  - exists (chatBox_innerHTML p ++ lit "<div class=" ++ [34]
            ++ lit "bot-message error" ++ [34] ++ lit ">"
            ++ formatResponse (VStr (lit "Error contacting the AI Advisor: "))),
           (lit "</div>").
    rewrite Hlog, Hparts. unfold bubble. now rewrite <- !app_assoc.
  - exists (chatBox_markup p ++ lit "<div class=" ++ [34]
            ++ lit "bot-message error" ++ [34] ++ lit ">"
            ++ formatResponse (VStr (lit "Error contacting the AI Advisor: "))),
           (lit "</div>").
    rewrite Hshown, Hparts.
    rewrite reserialize_app by apply formatResponse_head.
    rewrite (reserialize_plain
               (formatResponse (VStr (lit "Error contacting the AI Advisor: "))))
      by reflexivity.
    unfold bubble. now rewrite <- !app_assoc.
  - subst p'. now rewrite (handleSend_settle_failure r _ p Hr).
Qed.

(** X4.  Every bubble is followed by exactly one scroll to the bottom and
    nothing else scrolls: over any run of events the script writes a
    sequence of sanitized bubbles, the container reports as many bubbles
    more, and the number of scrolls grows by that number. *)
Theorem every_bubble_scrolls (evs : list event) (p : page) :
  exists written : list jsstring,
    chatBox_innerHTML (run evs p) = chatBox_innerHTML p ++ concat written
    /\ Forall sanitized_bubble written
    /\ chatBox_markup (run evs p)
       = chatBox_markup p ++ concat (map reserialize written)
    /\ chatBox_scrolls (run evs p)
       = (chatBox_scrolls p + length (map reserialize written))%nat.
Proof.
  destruct (run_writes evs p) as (written & Hlog & Hsafe & Hscrolls).
  exists written. split; [exact Hlog|]. split; [exact Hsafe|].
  split; [now apply markup_after_bubbles|].
  now rewrite length_map.
Qed.

(** ** A whole exchange *)

(** X6.  A click on an enabled button with text in the field, answered by a
    2xx response whose body has the string [reply] as its [response] field:
    the script writes the user bubble with the trimmed text and then a plain
    bot bubble with the formatted reply; the field is empty, the button
    enabled, the input focused, nothing is logged and nothing is left in
    flight.  The container reports the two bubbles as the parser hands them
    back, the reply as its lines, escaped, between break elements. *)
Theorem send_then_success (p : page) (status : N)
    (fields : list (jsstring * value)) (reply : jsstring) :
  sendBtn_disabled p = false ->
  trim (inputEl_value p) <> [] ->
  ok status = true ->
  field (lit "response") fields = Some (VStr reply) ->
  let p' := run [Click;
                 Settled (length (in_flight p))
                         (Response status (Some (VObj fields)))] p in
  p' = {| chatBox_innerHTML :=
            chatBox_innerHTML p
            ++ bubble (lit "user-message") (escape (trim (inputEl_value p)))
            ++ bubble (lit "bot-message") (formatResponse (VStr reply));
          chatBox_scrolls := S (S (chatBox_scrolls p));
          inputEl_value := [];
          inputEl_focused := true;
          sendBtn_disabled := false;
          console_errors := console_errors p;
          sid := sid p;
          in_flight := in_flight p |}
  /\ chatBox_markup p'
     = chatBox_markup p
       ++ bubble (lit "user-message")
                 (escape (reserialize (trim (inputEl_value p))))
       ++ bubble (lit "bot-message")
                 (join (lit "<br>") (map escape (map reserialize (lines reply)))).
Proof.
  intros He Ht Hok Hreply p'.
  assert (Hp : p' = {| chatBox_innerHTML :=
            chatBox_innerHTML p
            ++ bubble (lit "user-message") (escape (trim (inputEl_value p)))
            ++ bubble (lit "bot-message") (formatResponse (VStr reply));
          chatBox_scrolls := S (S (chatBox_scrolls p));
          inputEl_value := [];
          inputEl_focused := true;
          sendBtn_disabled := false;
          console_errors := console_errors p;
          sid := sid p;
          in_flight := in_flight p |}).
  { subst p'. rewrite run_cons, (click_sends p He Ht).
    change (run [?ev] ?q) with (step q ev).
    match goal with
    | |- context [step ?q (Settled _ ?r)] =>
        rewrite (settle_last q (in_flight p) _ r eq_refl)
    end.
    assert (Hr : sendMessage_settle (Response status (Some (VObj fields)))
                 = Normal (VStr reply)).
    { unfold sendMessage_settle, get, own. rewrite Hok, Hreply. cbn.
      now case_bool_decide; subst. }
    rewrite (handleSend_settle_success _ _ _ Hr eq_refl). cbn.
    now rewrite <- app_assoc. }
  split; [exact Hp|].
  unfold chatBox_markup. rewrite Hp. cbn [chatBox_innerHTML].
  rewrite !reserialize_app by (rewrite ?bubble_head; discriminate).
  rewrite !reserialize_bubble by reflexivity.
  now rewrite reserialize_escape, reserialize_formatResponse.
Qed.

(** X7.  The same click answered by a status outside 200-299 whose body has
    the non-empty string [m] as its [error] field: after the user bubble the
    script writes one error-styled bot bubble with the prefixed message, the
    error is logged once, and the page is idle again with an empty field.
    The container reports the two bubbles as the parser hands them back. *)
Theorem send_then_server_error (p : page) (status : N)
    (fields : list (jsstring * value)) (m : jsstring) :
  sendBtn_disabled p = false ->
  trim (inputEl_value p) <> [] ->
  ok status = false ->
  field (lit "error") fields = Some (VStr m) ->
  m <> [] ->
  let p' := run [Click;
                 Settled (length (in_flight p))
                         (Response status (Some (VObj fields)))] p in
  p' = {| chatBox_innerHTML :=
            chatBox_innerHTML p
            ++ bubble (lit "user-message") (escape (trim (inputEl_value p)))
            ++ bubble (lit "bot-message error")
                 (formatResponse
                    (VStr (lit "Error contacting the AI Advisor: " ++ m)));
          chatBox_scrolls := S (S (chatBox_scrolls p));
          inputEl_value := [];
          inputEl_focused := true;
          sendBtn_disabled := false;
          console_errors := console_errors p ++ [{| message := m |}];
          sid := sid p;
          in_flight := in_flight p |}
  /\ chatBox_markup p'
     = chatBox_markup p
       ++ bubble (lit "user-message")
                 (escape (reserialize (trim (inputEl_value p))))
       ++ bubble (lit "bot-message error")
            (join (lit "<br>")
               (map escape
                  (map reserialize
                     (lines (lit "Error contacting the AI Advisor: " ++ m))))).
Proof.
  intros He Ht Hok Herr Hm p'.
  assert (Hp : p' = {| chatBox_innerHTML :=
            chatBox_innerHTML p
            ++ bubble (lit "user-message") (escape (trim (inputEl_value p)))
            ++ bubble (lit "bot-message error")
                 (formatResponse
                    (VStr (lit "Error contacting the AI Advisor: " ++ m)));
          chatBox_scrolls := S (S (chatBox_scrolls p));
          inputEl_value := [];
          inputEl_focused := true;
          sendBtn_disabled := false;
          console_errors := console_errors p ++ [{| message := m |}];
          sid := sid p;
          in_flight := in_flight p |}).
  { subst p'. rewrite run_cons, (click_sends p He Ht).
    change (run [?ev] ?q) with (step q ev).
    match goal with
    | |- context [step ?q (Settled _ ?r)] =>
        rewrite (settle_last q (in_flight p) _ r eq_refl)
    end.
    assert (Hr : sendMessage_settle (Response status (Some (VObj fields)))
                 = Throw {| message := m |}).
    { unfold sendMessage_settle, new_Error, get, own. rewrite Hok, Herr. cbn.
      now case_bool_decide. }
    rewrite (handleSend_settle_failure _ _ _ Hr). cbn.
    unfold or_else. case_bool_decide; [contradiction|].
    now rewrite <- app_assoc. }
  split; [exact Hp|].
  unfold chatBox_markup. rewrite Hp. cbn [chatBox_innerHTML].
  rewrite !reserialize_app by (rewrite ?bubble_head; discriminate).
  rewrite !reserialize_bubble by reflexivity.
  now rewrite reserialize_escape, reserialize_formatResponse.
Qed.

(** ** The earlier variant *)

Lemma legacy_sanitizeHTML_same (text : value) :
  legacy_sanitizeHTML text = sanitizeHTML text.
Proof.
  unfold legacy_sanitizeHTML, sanitizeHTML, set_textContent.
  now rewrite nullish_idem.
Qed.

Lemma legacy_formatResponse_same (text : value) :
  legacy_formatResponse text = formatResponse text.
Proof.
  unfold legacy_formatResponse, formatResponse.
  now rewrite legacy_sanitizeHTML_same.
Qed.

(** X11.  The helpers of the two variants compute the same strings for
    every argument: assigning [null] or [undefined] to [textContent] already
    empties the element, so the [?? ""] of the later [sanitizeHTML] changes
    no result. *)
Theorem helpers_of_both_variants_agree (text : value) :
  legacy_sanitizeHTML text = sanitizeHTML text
  /\ legacy_formatResponse text = formatResponse text
  /\ legacy_sanitizeHTML VUndefined = []
  /\ legacy_sanitizeHTML VNull = [].
Proof.
  split; [apply legacy_sanitizeHTML_same|].
  split; [apply legacy_formatResponse_same|]. now split.
Qed.

(** X12.  However the exchange ends, the earlier listener completes
    normally once it has settled, with exactly one more bubble written, the
    field emptied and one scroll; it touches nothing else.  The bubble is
    the plain bot bubble with the formatted [response] field when that field
    is truthy; otherwise it is the error-styled bubble with "Error: "
    followed by the sanitized [error] field of the body.  When the exchange
    failed, the body did not parse, the body is [null] or the field cannot
    be converted to a string, it is the error-styled bubble with "Error: "
    followed by the escaped message of the error that was thrown.  The
    container reports the bubble as the parser hands it back. *)
Theorem legacy_click_settle_shape (r : fetch_result) (p : page) :
  let caught (e : Error) : jsstring * jsstring :=
    (lit "bot-message error", lit "Error: " ++ escape (message e)) in
  let shown : jsstring * jsstring :=
    match r with
    | NetworkFailure e => caught e
    | Response _ None => caught json_syntax_error
    | Response _ (Some data) =>
        match data with
        | VUndefined | VNull => caught null_read_error
        | _ =>
            if truthy (get data (lit "response")) then
              if convertible (get data (lit "response"))
              then (lit "bot-message",
                    formatResponse (get data (lit "response")))
              else caught conversion_error
            else
              if convertible (get data (lit "error"))
              then (lit "bot-message error",
                    lit "Error: " ++ sanitizeHTML (get data (lit "error")))
              else caught conversion_error
        end
    end in
  legacy_click_settle r p
  = (Normal tt,
     {| chatBox_innerHTML :=
          chatBox_innerHTML p ++ bubble (fst shown) (snd shown);
        chatBox_scrolls := S (chatBox_scrolls p);
        inputEl_value := [];
        inputEl_focused := inputEl_focused p;
        sendBtn_disabled := sendBtn_disabled p;
        console_errors := console_errors p;
        sid := sid p;
        in_flight := in_flight p |})
  /\ chatBox_markup (snd (legacy_click_settle r p))
     = chatBox_markup p ++ bubble (fst shown) (reserialize (snd shown)).
Proof.
  intros caught shown.
  assert (Hclass : no_cr_nul (fst shown) = true).
  { subst shown caught.
    destruct r as [e|status [data|]]; [|destruct data|];
      repeat (cbv beta iota zeta;
              first [destruct (truthy (get _ _))
                    |destruct (convertible (get _ _))]);
      reflexivity. }
  assert (Hpage : legacy_click_settle r p
                  = (Normal tt,
                     {| chatBox_innerHTML :=
                          chatBox_innerHTML p ++ bubble (fst shown) (snd shown);
                        chatBox_scrolls := S (chatBox_scrolls p);
                        inputEl_value := [];
                        inputEl_focused := inputEl_focused p;
                        sendBtn_disabled := sendBtn_disabled p;
                        console_errors := console_errors p;
                        sid := sid p;
                        in_flight := in_flight p |})).
  { clear Hclass. subst shown caught. cbv beta zeta.
    unfold legacy_click_settle, try_catch_finally, mbind, task_bind, lift,
      rendered.
    destruct r as [e|status [data|]]; [|destruct data|];
      repeat (cbv beta iota zeta;
              first [destruct (truthy (get _ _))
                    |destruct (convertible (get _ _))]);
      cbv beta iota zeta;
      rewrite <- ?sanitizeHTML_VStr, <- ?legacy_sanitizeHTML_same,
              <- ?legacy_formatResponse_same;
      reflexivity. }
  split; [exact Hpage|].
  rewrite Hpage. cbn [snd]. now apply markup_after_bubble.
Qed.

(** X13.  The earlier listener does not trim: on a field that holds only
    whitespace, where [handleSend] does nothing, it renders a user bubble
    with that text and posts it as the message. *)
Theorem legacy_sends_blank_input (p : page) :
  inputEl_value p <> [] ->
  forallb isWhiteSpace (inputEl_value p) = true ->
  handleSend_begin p = (Normal tt, p)
  /\ legacy_click_begin p
     = (Normal (Some {| legacy_url := lit "/chat";
                        legacy_method := lit "POST";
                        legacy_content_type := lit "application/json";
                        legacy_message := inputEl_value p |}),
        set_chatBox_innerHTML
          (chatBox_innerHTML p
           ++ bubble (lit "user-message") (escape (inputEl_value p))) p).
Proof.
  intros Hne Hblank. split.
  - apply handleSend_begin_blank. now apply trim_blank.
  - unfold legacy_click_begin, mbind, task_bind, reads, append_markup, modify.
    case_bool_decide; [contradiction|].
    now rewrite legacy_sanitizeHTML_same, sanitizeHTML_VStr.
Qed.

Lemma legacy_click_settle_plain (status : N) (data : value) (p : page) :
  truthy (get data (lit "response")) = true ->
  convertible (get data (lit "response")) = true ->
  legacy_click_settle (Response status (Some data)) p
  = (Normal tt,
     {| chatBox_innerHTML :=
          chatBox_innerHTML p
          ++ bubble (lit "bot-message")
                    (formatResponse (get data (lit "response")));
        chatBox_scrolls := S (chatBox_scrolls p);
        inputEl_value := [];
        inputEl_focused := inputEl_focused p;
        sendBtn_disabled := sendBtn_disabled p;
        console_errors := console_errors p;
        sid := sid p;
        in_flight := in_flight p |}).
Proof.
  intros Hresp Hconv.
  unfold legacy_click_settle, try_catch_finally, mbind, task_bind, lift,
    rendered.
  destruct data; try (now cbn in Hresp);
    cbv beta iota zeta; rewrite Hresp, Hconv; cbv beta iota zeta;
    rewrite <- legacy_formatResponse_same; reflexivity.
Qed.

(** X14.  On a 2xx response whose body has a truthy [response] field that
    converts to a string, the two variants write the same bubble, the plain
    bot bubble with the formatted field, and the container reports the same
    markup. *)
Theorem variants_agree_on_success (status : N) (data : value) (p : page) :
  ok status = true ->
  truthy (get data (lit "response")) = true ->
  convertible (get data (lit "response")) = true ->
  chatBox_innerHTML (snd (legacy_click_settle (Response status (Some data)) p))
  = chatBox_innerHTML (snd (handleSend_settle (Response status (Some data)) p))
  /\ chatBox_markup (snd (legacy_click_settle (Response status (Some data)) p))
     = chatBox_markup (snd (handleSend_settle (Response status (Some data)) p))
  /\ chatBox_innerHTML (snd (handleSend_settle (Response status (Some data)) p))
     = chatBox_innerHTML p
       ++ bubble (lit "bot-message")
                 (formatResponse (get data (lit "response"))).
Proof.
  intros Hok Hresp Hconv.
  assert (Hr : sendMessage_settle (Response status (Some data))
               = Normal (get data (lit "response"))).
  { unfold sendMessage_settle. now rewrite !truthy_get, Hok, Hresp. }
  unfold chatBox_markup.
  rewrite (handleSend_settle_success _ _ p Hr Hconv).
  rewrite (legacy_click_settle_plain status data p Hresp Hconv).
  now repeat split.
Qed.

(** X15.  The earlier listener reads no status: on a status outside 200-299
    whose body has a truthy [response] field that converts to a string it
    still writes the plain bot bubble with that field, where [handleSend]
    writes the error-styled bubble with the prefixed message of the failure
    that [sendMessage] reports; the container reports each as the parser
    hands it back. *)
Theorem legacy_ignores_status (status : N) (data : value) (p : page) :
  ok status = false ->
  truthy (get data (lit "response")) = true ->
  convertible (get data (lit "response")) = true ->
  let failure : Error :=
    if truthy (get data (lit "error"))
    then (if convertible (get data (lit "error"))
          then {| message := ToString (get data (lit "error")) |}
          else conversion_error)
    else {| message := lit "HTTP " ++ decimal status |} in
  let shown : jsstring :=
    formatResponse
      (VStr (lit "Error contacting the AI Advisor: "
             ++ or_else (message failure) (lit "request failed"))) in
  let old := snd (legacy_click_settle (Response status (Some data)) p) in
  let new := snd (handleSend_settle (Response status (Some data)) p) in
  chatBox_innerHTML old
  = chatBox_innerHTML p
    ++ bubble (lit "bot-message") (formatResponse (get data (lit "response")))
  /\ chatBox_markup old
     = chatBox_markup p
       ++ bubble (lit "bot-message")
            (reserialize (formatResponse (get data (lit "response"))))
  /\ chatBox_innerHTML new
     = chatBox_innerHTML p ++ bubble (lit "bot-message error") shown
  /\ chatBox_markup new
     = chatBox_markup p ++ bubble (lit "bot-message error") (reserialize shown).
Proof.
  intros Hok Hresp Hconv failure shown old new.
  assert (Hold : chatBox_innerHTML old
                 = chatBox_innerHTML p
                   ++ bubble (lit "bot-message")
                        (formatResponse (get data (lit "response")))).
  { subst old. now rewrite (legacy_click_settle_plain status data p Hresp Hconv). }
  assert (Hr : sendMessage_settle (Response status (Some data)) = Throw failure).
  { subst failure. unfold sendMessage_settle, new_Error.
    rewrite !truthy_get, Hok. cbn [negb].
    destruct (truthy (get data (lit "error"))); [|reflexivity].
    now destruct (convertible (get data (lit "error"))). }
  assert (Hnew : chatBox_innerHTML new
                 = chatBox_innerHTML p ++ bubble (lit "bot-message error") shown).
  { subst new shown. now rewrite (handleSend_settle_failure _ _ p Hr). }
  split; [exact Hold|]. split; [now apply markup_after_bubble|].
  split; [exact Hnew|]. now apply markup_after_bubble.
Qed.

End FurtherProperties.

(** ** The further conditional properties at concrete inputs *)

Lemma send_carries_trimmed_text_witness :
  let p := set_inputEl_value (lit "  hi ") (fresh_page (lit "s")) in
  forallb isWhiteSpace (inputEl_value p) = false
  /\ exists pre m post : jsstring,
       inputEl_value p = pre ++ m ++ post
       /\ forallb isWhiteSpace pre = true
       /\ forallb isWhiteSpace post = true
       /\ is_trimmed m = true
       /\ in_flight (snd (handleSend_begin p))
          = in_flight p ++ [sendMessage_request m (sid p)]
       /\ chatBox_innerHTML (snd (handleSend_begin p))
          = chatBox_innerHTML p ++ bubble (lit "user-message") (escape m).
Proof.
  split; [reflexivity|].
  apply send_carries_trimmed_text. reflexivity.
Defined.

Lemma in_flight_requests_are_chat_requests_witness :
  let p := fresh_page (lit "s") in
  let evs := [Typed (lit " hi "); Click; Typed (lit "more"); KeyDown (lit "Enter") false] in
  Forall (chat_request (sid p)) (in_flight p)
  /\ sid (run evs p) = sid p
  /\ Forall (chat_request (sid p)) (in_flight (run evs p)).
Proof.
  split; [constructor|].
  apply in_flight_requests_are_chat_requests. constructor.
Defined.

Lemma disabled_only_while_in_flight_witness :
  let p := fresh_page (lit "s") in
  let evs := [Typed (lit "hi"); Click] in
  (sendBtn_disabled p = true -> in_flight p <> [])
  /\ sendBtn_disabled (run evs p) = true
  /\ in_flight (run evs p) <> [].
Proof.
  assert (Hp : sendBtn_disabled (fresh_page (lit "s")) = true ->
               in_flight (fresh_page (lit "s")) <> []) by discriminate.
  split; [exact Hp|]. split; [reflexivity|].
  exact (disabled_only_while_in_flight [Typed (lit "hi"); Click]
           (fresh_page (lit "s")) Hp eq_refl).
Defined.

Lemma send_then_success_witness :
  let p := set_inputEl_value (lit " hello ") (fresh_page (lit "s")) in
  let fields := [(lit "response", VStr (lit "hi"))] in
  sendBtn_disabled p = false
  /\ trim (inputEl_value p) <> []
  /\ ok 200 = true
  /\ field (lit "response") fields = Some (VStr (lit "hi"))
  /\ chatBox_innerHTML
       (run [Click; Settled 0 (Response 200 (Some (VObj fields)))] p)
     = bubble (lit "user-message") (lit "hello")
       ++ bubble (lit "bot-message") (lit "hi").
Proof.
  assert (Ht : trim (inputEl_value
                 (set_inputEl_value (lit " hello ") (fresh_page (lit "s"))))
               <> []) by (vm_compute; discriminate).
  split; [reflexivity|]. split; [exact Ht|].
  split; [reflexivity|]. split; [reflexivity|].
  exact (f_equal chatBox_innerHTML
           (proj1 (send_then_success
                     (set_inputEl_value (lit " hello ") (fresh_page (lit "s")))
                     200 [(lit "response", VStr (lit "hi"))] (lit "hi")
                     eq_refl Ht eq_refl eq_refl))).
Defined.

Lemma send_then_server_error_witness :
  let p := set_inputEl_value (lit " hello ") (fresh_page (lit "s")) in
  let fields := [(lit "error", VStr (lit "overloaded"))] in
  sendBtn_disabled p = false
  /\ trim (inputEl_value p) <> []
  /\ ok 503 = false
  /\ field (lit "error") fields = Some (VStr (lit "overloaded"))
  /\ lit "overloaded" <> []
  /\ chatBox_innerHTML
       (run [Click; Settled 0 (Response 503 (Some (VObj fields)))] p)
     = bubble (lit "user-message") (lit "hello")
       ++ bubble (lit "bot-message error")
            (lit "Error contacting the AI Advisor: overloaded").
Proof.
  assert (Ht : trim (inputEl_value
                 (set_inputEl_value (lit " hello ") (fresh_page (lit "s"))))
               <> []) by (vm_compute; discriminate).
  assert (Hm : lit "overloaded" <> []) by discriminate.
  split; [reflexivity|]. split; [exact Ht|].
  split; [reflexivity|]. split; [reflexivity|]. split; [exact Hm|].
  exact (f_equal chatBox_innerHTML
           (proj1 (send_then_server_error
                     (set_inputEl_value (lit " hello ") (fresh_page (lit "s")))
                     503 [(lit "error", VStr (lit "overloaded"))]
                     (lit "overloaded") eq_refl Ht eq_refl eq_refl Hm))).
Defined.

Lemma legacy_sends_blank_input_witness :
  let p := set_inputEl_value (lit "   ") (fresh_page (lit "s")) in
  inputEl_value p <> []
  /\ forallb isWhiteSpace (inputEl_value p) = true
  /\ handleSend_begin p = (Normal tt, p)
  /\ chatBox_innerHTML (snd (legacy_click_begin p))
     = bubble (lit "user-message") (lit "   ").
Proof.
  assert (Hne : inputEl_value
                  (set_inputEl_value (lit "   ") (fresh_page (lit "s"))) <> [])
    by discriminate.
  split; [exact Hne|]. split; [reflexivity|].
  destruct (legacy_sends_blank_input
              (set_inputEl_value (lit "   ") (fresh_page (lit "s")))
              Hne eq_refl) as [Hnew Hold].
  split; [exact Hnew|]. exact (f_equal (fun c => chatBox_innerHTML (snd c)) Hold).
Defined.

Lemma variants_agree_on_success_witness :
  let p := fresh_page (lit "s") in
  let data := VObj [(lit "response", VStr (lit "hi"))] in
  ok 200 = true
  /\ truthy (get data (lit "response")) = true
  /\ convertible (get data (lit "response")) = true
  /\ chatBox_innerHTML (snd (legacy_click_settle (Response 200 (Some data)) p))
     = chatBox_innerHTML (snd (handleSend_settle (Response 200 (Some data)) p)).
Proof.
  split; [reflexivity|]. split; [reflexivity|]. split; [reflexivity|].
  exact (proj1 (variants_agree_on_success 200
                  (VObj [(lit "response", VStr (lit "hi"))])
                  (fresh_page (lit "s")) eq_refl eq_refl eq_refl)).
Defined.

Lemma legacy_ignores_status_witness :
  let p := fresh_page (lit "s") in
  let data := VObj [(lit "response", VStr (lit "hi"))] in
  ok 500 = false
  /\ truthy (get data (lit "response")) = true
  /\ convertible (get data (lit "response")) = true
  /\ chatBox_innerHTML (snd (legacy_click_settle (Response 500 (Some data)) p))
     = bubble (lit "bot-message") (lit "hi").
Proof.
  split; [reflexivity|]. split; [reflexivity|]. split; [reflexivity|].
  exact (proj1 (legacy_ignores_status 500
                  (VObj [(lit "response", VStr (lit "hi"))])
                  (fresh_page (lit "s")) eq_refl eq_refl eq_refl)).
Defined.

Lemma failure_bubble_text_witness :
  let r : fetch_result := Response 500 None in
  let p := fresh_page (lit "s") in
  sendMessage_settle r = Throw {| message := lit "HTTP 500" |}
  /\ chatBox_innerHTML (snd (handleSend_settle r p))
     = chatBox_innerHTML p
       ++ bubble (lit "bot-message error")
            (formatResponse
               (VStr (lit "Error contacting the AI Advisor: "
                      ++ or_else (lit "HTTP 500") (lit "request failed")))).
Proof.
  split; [reflexivity|].
  exact (proj1 (failure_bubble_text (Response 500 None) (lit "HTTP 500")
                  (fresh_page (lit "s")) eq_refl)).
Defined.
